(** * EQcorrscan lag_calc: pick corrections for correlation detections

    A shallow embedding of [eqcorrscan/core/lag_calc.py] and the properties
    of its three functions [_channel_loop], [_day_loop] and [lag_calc].

    Conventions of the embedding.
    - Seconds (absolute times, offsets, sample intervals) and correlation
      coefficients are rationals in canonical form ([Qc]): the arithmetic of
      the source is read over exact numbers.
    - An obspy [Stream] is the list of its traces; [Stream.select] with a
      station and a channel keeps the traces whose codes are equal to them
      (codes are upper case and carry no wildcard).
    - Iterating over a [Stream] runs over the list of traces it holds when
      the loop starts; [Stream.sort] is the stable sort of Python's
      [list.sort], reorders the stream in place and returns it.
    - The module is Python 2 ([xrange]): [zip] builds a list, which the
      three loops of [lag_calc] go through one after the other.
    - The template streams the caller passes are distinct objects.
    - Python exceptions are the [Raise] results of [result].
    - The correlation primitive [normxcorr2] and obspy's [Trace.trim] are
      not part of the module: they are parameters of the development. *)

From stdpp Require Import gmap strings list fin_maps numbers sorting.
From Stdlib Require Import QArith Qcanon.

Local Open Scope Qc_scope.

(** ** Exceptions and results *)

Inductive exception :=
  | IndexError
  | ValueError
  | ZeroDivisionError.

(** [IndexError] derives from [LookupError] in Python's exception hierarchy. *)
Definition is_LookupError (e : exception) : bool :=
  match e with
  | IndexError => true
  | _ => false
  end.

Inductive result (A : Type) :=
  | Ok (a : A)
  | Raise (e : exception).
Arguments Ok {A} a.
Arguments Raise {A} e.

Global Instance result_ret : MRet result := λ A a, Ok a.
Global Instance result_bind : MBind result := λ A B f r,
  match r with
  | Ok a => f a
  | Raise e => Raise e
  end.
Global Instance result_fmap : FMap result := λ A B f r,
  match r with
  | Ok a => Ok (f a)
  | Raise e => Raise e
  end.

(** A loop whose body may raise: the first exception ends it. *)
Fixpoint foldM `{MBind M, MRet M} {A B} (f : B → A → M B) (b : B) (l : list A)
    : M B :=
  match l with
  | [] => mret b
  | x :: l' => b' ← f b x; foldM f b' l'
  end.

(** [l[0]] *)
Definition index0 {A} (l : list A) : result A :=
  match l with
  | [] => Raise IndexError
  | x :: _ => Ok x
  end.

(** [n / d] on floats: Python raises on a zero divisor. *)
Definition py_div (n d : Qc) : result Qc :=
  if bool_decide (d = 0) then Raise ZeroDivisionError else Ok (n / d).

(** ** Traces, streams, picks and events *)

Record Trace := {
  network : string;
  station : string;
  channel : string;
  sampling_rate : Qc;
  starttime : Qc;
  data : list Qc
}.

Abbreviation Stream := (list Trace).

(** [tr.stats.delta]: the sample interval. *)
Definition delta (tr : Trace) : Qc := 1 / sampling_rate tr.

(** [stream.select(station=sta, channel=chan)] *)
Definition select (st : Stream) (sta chan : string) : Stream :=
  filter (λ tr, station tr = sta ∧ channel tr = chan) st.

Record WaveformStreamID := {
  network_code : string;
  station_code : string;
  channel_code : string
}.

Record Pick := {
  waveform_id : WaveformStreamID;
  time : Qc;
  phase_hint : option string
}.

Record Event := { picks : list Pick }.

Abbreviation Catalog := (list Event).

(** An entry of the delay table: station, channel and offset. *)
Abbreviation delay_entry := (string * string * Qc)%type.

Record DETECTION := {
  template_name : string;
  detect_time : Qc
}.

(** ** numpy and string helpers *)

(** [np.amax]: the maximum; numpy raises [ValueError] on an empty array. *)
Fixpoint amax (l : list Qc) : option Qc :=
  match l with
  | [] => None
  | x :: l' =>
      match amax l' with
      | None => Some x
      | Some m => Some (if bool_decide (m ≤ x) then x else m)
      end
  end.

Definition np_amax (l : list Qc) : result Qc :=
  match amax l with
  | Some m => Ok m
  | None => Raise ValueError
  end.

(** [np.argmax]: the position of the first occurrence of the maximum. *)
Fixpoint argmax (l : list Qc) : nat :=
  match l with
  | [] => O
  | x :: l' =>
      match amax l' with
      | None => O
      | Some m => if bool_decide (m ≤ x) then O else S (argmax l')
      end
  end.

(** [s[-1:]]: the last character as a string, empty for the empty string. *)
Fixpoint last_slice (s : string) : string :=
  match s with
  | EmptyString => EmptyString
  | String c s' =>
      match s' with
      | EmptyString => String c EmptyString
      | String _ _ => last_slice s'
      end
  end.

(** ** Sorting

    Python's [list.sort(key=...)] is stable; insertion from the right gives
    the same list. *)
Section sort_by.
Context {A K : Type} (le : K → K → Prop) `{!RelDecision le} (key : A → K).

Fixpoint insert_by (x : A) (l : list A) : list A :=
  match l with
  | [] => [x]
  | y :: l' =>
      if bool_decide (le (key x) (key y)) then x :: y :: l'
      else y :: insert_by x l'
  end.

Definition sort_by (l : list A) : list A := foldr insert_by [] l.
End sort_by.

(** [stream.sort(['starttime'])] *)
Definition Stream_sort (st : Stream) : Stream := sort_by Qcle starttime st.

(** ** The channel loop *)

Section lag_calc.
(** [normxcorr2 template image]: the correlation coefficients of the
    template against the image, one for each alignment (the one row of the
    array the primitive returns, which [np.amax] and [np.argmax] flatten). *)
Variable normxcorr2 : list Qc → list Qc → list Qc.

(** State of the loop of [_channel_loop]: the picks of the event so far,
    the dict [s_stachans] and the list [used_s_sta]. *)
Record loop_state := {
  ev_picks : list Pick;
  s_stachans : gmap string (string * Qc * Qc);
  used_s_sta : list string
}.

Definition loop_init : loop_state :=
  {| ev_picks := []; s_stachans := ∅; used_s_sta := [] |}.

(** [event.picks.append(Pick(...))] at the end of the loop body. *)
Definition append_pick (st : loop_state) (temp_net temp_sta temp_chan : string)
    (picktime : Qc) (phase : option string) : loop_state :=
  {| ev_picks := ev_picks st ++
       [ {| waveform_id := {| network_code := temp_net;
                              station_code := temp_sta;
                              channel_code := temp_chan |};
            time := picktime;
            phase_hint := phase |} ];
     s_stachans := s_stachans st;
     used_s_sta := used_s_sta st |}.

(** One iteration of [for tr in template]. *)
Definition channel_step (detection : Stream) (min_cc : Qc)
    (st : loop_state) (tr : Trace) : result loop_state :=
  let temp_net := network tr in
  let temp_sta := station tr in
  let temp_chan := channel tr in
  match select detection temp_sta temp_chan with
  | [] => Ok st
  | image0 :: _ =>
      let ccc := normxcorr2 (data tr) (data image0) in
      peak ← np_amax ccc;
      if bool_decide (min_cc < peak) then
        let picktime :=
          starttime image0 + Qc_of_Z (Z.of_nat (argmax ccc)) * delta image0 in
        if bool_decide (last_slice temp_chan = "Z") then
          Ok (append_pick st temp_net temp_sta temp_chan picktime (Some "P"))
        else if bool_decide (last_slice temp_chan ∈ ["E"; "N"]) then
          match s_stachans st !! temp_sta, bool_decide (min_cc < peak) with
          | None, true =>
              let st' := {| ev_picks := ev_picks st;
                            s_stachans := <[temp_sta := (temp_chan, peak, picktime)]>
                                            (s_stachans st);
                            used_s_sta := used_s_sta st |} in
              Ok (append_pick st' temp_net temp_sta temp_chan picktime (Some "S"))
          | Some best, true =>
              if bool_decide (best.1.2 < peak) then
                Ok (append_pick st temp_net temp_sta temp_chan picktime (Some "S"))
              else
                Ok (append_pick st temp_net temp_sta best.1.1 best.2 (Some "S"))
          | _, false =>
              if bool_decide (peak < min_cc) && bool_decide (temp_sta ∉ used_s_sta st)
              then
                let st' := {| ev_picks := ev_picks st;
                              s_stachans := s_stachans st;
                              used_s_sta := used_s_sta st ++ [temp_sta] |} in
                Ok (append_pick st' temp_net temp_sta temp_chan picktime (Some "S"))
              else Ok st
          end
        else
          Ok (append_pick st temp_net temp_sta temp_chan picktime None)
      else Ok st
  end.

Definition _channel_loop (detection template : Stream) (min_cc : Qc) (i : nat)
    : result (nat * Event) :=
  st ← foldM (channel_step detection min_cc) loop_init template;
  Ok (i, {| picks := ev_picks st |}).

(** ** The worker pool of [_day_loop]

    [pool.apply_async] hands task [i] to the pool; the tasks complete in an
    order the program does not control.  A [scheduler] stands for that
    order: from the tasks still running it picks the one that completes
    next.  [run_pool] returns the completed results in completion order. *)
Definition scheduler := list nat → nat.

Fixpoint run_pool {R} (sched : scheduler) (task : nat → R) (fuel : nat)
    (pending : list nat) (done : list (nat * R)) : list (nat * R) :=
  match fuel with
  | O => done
  | S fuel' =>
      let k := Nat.modulo (sched pending) (length pending) in
      match pending !! k with
      | None => done
      | Some i =>
          run_pool sched task fuel' (delete k pending) (done ++ [(i, task i)])
      end
  end.

(** [p.get()] for the handle of task [i]: the result the pool recorded for
    it; [get] waits for the task when it has not completed yet. *)
Definition AsyncResult_get {R} (task : nat → R) (done : list (nat * R))
    (i : nat) : R :=
  match list_find (λ p, p.1 = i) done with
  | Some (_, (_, r)) => r
  | None => task i
  end.

(** [multiprocessing.cpu_count()] *)
Variable cpu_count : positive.

(** The task [pool.apply_async(_channel_loop, args=(detection_streams[i],
    template, min_cc, i))]. *)
Definition day_task (detection_streams : list Stream) (template : Stream)
    (min_cc : Qc) (i : nat) : result (nat * Event) :=
  ds ← match detection_streams !! i with
       | Some ds => Ok ds
       | None => Raise IndexError
       end;
  _channel_loop ds template min_cc i.

Definition _day_loop (sched : scheduler) (detection_streams : list Stream)
    (template : Stream) (min_cc : Qc) : result Catalog :=
  let num_cores :=
    if bool_decide (length detection_streams < Pos.to_nat cpu_count)%nat
    then length detection_streams else Pos.to_nat cpu_count in
  (* Pool(processes=0) raises ValueError *)
  if bool_decide (num_cores < 1)%nat then Raise ValueError else
  let task := day_task detection_streams template min_cc in
  let handles := seq 0 (length detection_streams) in
  let done := run_pool sched task (length handles) handles [] in
  events_list ← mapM (AsyncResult_get task done) handles;
  let events_list := sort_by Nat.le fst events_list in
  Ok (events_list.*2).

(** ** The delay table *)

(** The loop [for tr in template[1]]: it runs over a copy of the list of
    traces taken when it starts, while [sort] reorders the stream itself.
    Returns the stream as the loop leaves it and [temp_delays]. *)
Fixpoint template_delays (snapshot : list Trace) (stream : Stream)
    (temp_delays : list delay_entry) : Stream * result (list delay_entry) :=
  match snapshot with
  | [] => (stream, Ok temp_delays)
  | tr :: rest =>
      let stream' := Stream_sort stream in
      match stream' with
      | [] => (stream', Raise IndexError)
      | first :: _ =>
          template_delays rest stream'
            (temp_delays ++
               [(station tr, channel tr, starttime tr - starttime first)])
      end
  end.

(** The loop [for template in zipped_templates] that fills [delays].
    Returns the zipped templates as the loop leaves them and [delays]. *)
Fixpoint delay_loop (zipped_templates : list (string * Stream))
    : list (string * Stream) * result (list (string * list delay_entry)) :=
  match zipped_templates with
  | [] => ([], Ok [])
  | template :: rest =>
      match template_delays template.2 template.2 [] with
      | (stream', Raise e) => ((template.1, stream') :: rest, Raise e)
      | (stream', Ok temp_delays) =>
          let '(rest', r) := delay_loop rest in
          ((template.1, stream') :: rest',
           (λ delays, (template.1, temp_delays) :: delays) <$> r)
      end
  end.

(** ** Cutting the detection windows

    The traces of the continuous data are objects: [tr.copy()] makes a new
    one and [trim] changes the one it is called on.  The heap lists the
    trace objects, a trace is named by its position in it, and the traces
    of [detect_data] are the objects the heap starts with. *)
Definition heapM (A : Type) : Type := list Trace → list Trace * result A.

Global Instance heapM_ret : MRet heapM := λ A a h, (h, Ok a).
Global Instance heapM_bind : MBind heapM := λ A B f m h,
  match m h with
  | (h', Ok a) => f a h'
  | (h', Raise e) => (h', Raise e)
  end.

Definition lift {A} (r : result A) : heapM A := λ h, (h, r).

(** [Trace()], the empty trace of obspy. *)
Global Instance Trace_inhabited : Inhabited Trace :=
  populate {| network := ""; station := ""; channel := "";
              sampling_rate := 1; starttime := 0; data := [] |}.

Definition read (tr : nat) : heapM Trace := λ h, (h, Ok (h !!! tr)).

(** [tr.copy()] *)
Definition Trace_copy (tr : nat) : heapM nat :=
  λ h, (h ++ [h !!! tr], Ok (length h)).

(** obspy's [Trace.trim(starttime, endtime)] on the value of a trace. *)
Variable trim_value : Trace → Qc → Qc → result Trace.

(** [tr.trim(starttime=.., endtime=..)]: changes [tr], returns it. *)
Definition Trace_trim (tr : nat) (start_time end_time : Qc) : heapM nat :=
  λ h, match trim_value (h !!! tr) start_time end_time with
       | Ok v => (<[tr := v]> h, Ok tr)
       | Raise e => (h, Raise e)
       end.

(** One iteration of [for tr in detect_data]. *)
Definition window_step (zipped_templates : list (string * Stream))
    (delays : list (string * list delay_entry)) (detection : DETECTION)
    (shift_len : Qc) (detect_stream : list nat) (tr : nat)
    : heapM (list nat) :=
  tr_copy ← Trace_copy tr;
  template ← lift (index0
    (filter (λ t, t.1 = template_name detection) zipped_templates));
  stats ← read tr;
  match select template.2 (station stats) (channel stats) with
  | [] => mret detect_stream
  | template0 :: _ =>
      template_len ← lift (py_div
        (Qc_of_Z (Z.of_nat (length (data template0))))
        (sampling_rate template0));
      delay ← lift (index0
        (filter (λ delay, delay.1 = template_name detection) delays));
      delay ← lift (index0
        (filter (λ d : delay_entry,
                   d.1.1 = station stats ∧ d.1.2 = channel stats) delay.2));
      window ← Trace_trim tr_copy
        (detect_time detection - shift_len + delay.2)
        (detect_time detection + delay.2 + shift_len + template_len);
      mret (detect_stream ++ [window])
  end.

(** The body of [for detection in detections]. *)
Definition detection_window (zipped_templates : list (string * Stream))
    (delays : list (string * list delay_entry)) (shift_len : Qc)
    (detect_data : list nat) (detection : DETECTION)
    : heapM (string * list nat) :=
  detect_stream ←
    foldM (window_step zipped_templates delays detection shift_len)
          [] detect_data;
  mret (template_name detection, detect_stream).

(** ** The overseer *)

(** The loop [for template in zipped_templates] that feeds [_day_loop];
    [scheds k] is the completion order of the pool of the [k]-th template. *)
Fixpoint template_loop (scheds : nat → scheduler) (k : nat)
    (zipped_templates : list (string * Stream))
    (detect_streams : list (string * Stream)) (min_cc : Qc)
    (initial_cat : Catalog) : result Catalog :=
  match zipped_templates with
  | [] => Ok initial_cat
  | template :: rest =>
      let template_detections :=
        (filter (λ detect, detect.1 = template.1) detect_streams).*2 in
      cat ← (if bool_decide (0 < length template_detections)%nat
             then temp_catalog ←
                    _day_loop (scheds k) template_detections template.2 min_cc;
                  Ok (initial_cat ++ temp_catalog)
             else Ok initial_cat);
      template_loop scheds (S k) rest detect_streams min_cc cat
  end.

(** What a call of [lag_calc] leaves behind: the caller's template streams,
    the trace objects, and the catalog it returns or the exception. *)
Record outcome := {
  templates_after : list Stream;
  heap_after : list Trace;
  returned : result Catalog
}.

(** The streams handed to the workers: the traces the windows name, as
    the heap holds them when the windows are all cut. *)
Definition load_streams (heap : list Trace)
    (detect_streams : list (string * list nat)) : list (string * Stream) :=
  (λ detect : string * list nat,
     (detect.1, (λ tr : nat, heap !!! tr) <$> detect.2)) <$> detect_streams.

Definition lag_calc (scheds : nat → scheduler) (detections : list DETECTION)
    (detect_data : list Trace) (template_names : list string)
    (templates : list Stream) (shift_len min_cc : Qc) : outcome :=
  let zipped_templates := zip template_names templates in
  let '(zipped_templates, delays) := delay_loop zipped_templates in
  let templates' :=
    zipped_templates.*2 ++ drop (length zipped_templates) templates in
  match delays with
  | Raise e =>
      {| templates_after := templates'; heap_after := detect_data;
         returned := Raise e |}
  | Ok delays =>
      match mapM (detection_window zipped_templates delays shift_len
                    (seq 0 (length detect_data)))
                 detections detect_data with
      | (heap, Raise e) =>
          {| templates_after := templates'; heap_after := heap;
             returned := Raise e |}
      | (heap, Ok detect_streams) =>
          {| templates_after := templates'; heap_after := heap;
             returned :=
               template_loop scheds 0 zipped_templates
                 (load_streams heap detect_streams) min_cc [] |}
      end
  end.

(** ** Reference definitions of the statements *)

(** The phase hint that goes with a channel code. *)
Definition phase_of (chan : string) : option string :=
  if bool_decide (last_slice chan = "Z") then Some "P"
  else if bool_decide (last_slice chan ∈ ["E"; "N"]) then Some "S"
  else None.

(** The template channel has a window in the detection and its peak
    correlation is above the threshold. *)
Definition above_threshold (detection : Stream) (min_cc : Qc) (tr : Trace)
    : bool :=
  match select detection (station tr) (channel tr) with
  | [] => false
  | image0 :: _ =>
      match amax (normxcorr2 (data tr) (data image0)) with
      | Some peak => bool_decide (min_cc < peak)
      | None => false
      end
  end.

(** The least start time of the traces of a template. *)
Definition min_starttime (template : Stream) : Qc :=
  match Stream_sort template with
  | first :: _ => starttime first
  | [] => 0
  end.

(** The delays of a template: trace by trace, the start time of the trace
    less the least start time of the template. *)
Definition delays_of (template : Stream) : list delay_entry :=
  (λ tr, (station tr, channel tr, starttime tr - min_starttime template))
    <$> template.

(** The delay table [lag_calc] builds. *)
Definition delay_table (template_names : list string)
    (templates : list Stream) : list (string * list delay_entry) :=
  (λ template : string * Stream, (template.1, delays_of template.2))
    <$> zip template_names templates.

(** The time of best alignment of a template channel in its window. *)
Definition picktime_of (tr image0 : Trace) : Qc :=
  starttime image0 +
  Qc_of_Z (Z.of_nat (argmax (normxcorr2 (data tr) (data image0)))) *
  delta image0.

(** Where a pick comes from: a channel of the template with the codes of
    the pick, the window of that channel, and its peak correlation. *)
Definition pick_origin (detection template : Stream) (min_cc : Qc) (p : Pick)
    (tr image0 : Trace) (peak : Qc) : Prop :=
  tr ∈ template ∧
  station tr = station_code (waveform_id p) ∧
  channel tr = channel_code (waveform_id p) ∧
  head (select detection (station tr) (channel tr)) = Some image0 ∧
  amax (normxcorr2 (data tr) (data image0)) = Some peak ∧
  min_cc < peak ∧
  time p = picktime_of tr image0 ∧
  phase_hint p = phase_of (channel tr).

(** The invariant of the loop of [_channel_loop]: every pick has an
    origin, and so has every entry of [s_stachans]. *)
Definition loop_inv (detection template : Stream) (min_cc : Qc)
    (st : loop_state) : Prop :=
  Forall (λ p, ∃ tr image0 peak,
            pick_origin detection template min_cc p tr image0 peak)
         (ev_picks st) ∧
  ∀ sta best, s_stachans st !! sta = Some best →
    ∃ tr image0,
      pick_origin detection template min_cc
        {| waveform_id := {| network_code := network tr; station_code := sta;
                             channel_code := best.1.1 |};
           time := best.2; phase_hint := Some "S" |}
        tr image0 best.1.2.

(** The window a trace of the continuous data gets for a detection, as a
    value: none when the template of the detection has no channel with
    the codes of the trace. *)
Definition window_of (zipped_templates : list (string * Stream))
    (delays : list (string * list delay_entry)) (detection : DETECTION)
    (shift_len : Qc) (tr : Trace) : result (option Trace) :=
  template ← index0
    (filter (λ t, t.1 = template_name detection) zipped_templates);
  match select template.2 (station tr) (channel tr) with
  | [] => Ok None
  | template0 :: _ =>
      template_len ← py_div
        (Qc_of_Z (Z.of_nat (length (data template0))))
        (sampling_rate template0);
      delay ← index0
        (filter (λ delay, delay.1 = template_name detection) delays);
      delay ← index0
        (filter (λ d : delay_entry,
                   d.1.1 = station tr ∧ d.1.2 = channel tr) delay.2);
      window ← trim_value tr
        (detect_time detection - shift_len + delay.2)
        (detect_time detection + delay.2 + shift_len + template_len);
      Ok (Some window)
  end.

(** The objects one pass over the continuous data adds to the heap, a
    copy for each trace, trimmed when the trace has a window; and the
    places of the windows among them, the first copy being at [base]. *)
Definition window_objects (traces : list Trace) (ws : list (option Trace))
    : list Trace :=
  zip_with (λ tr w, default tr w) traces ws.

Fixpoint window_addrs (base : nat) (ws : list (option Trace)) : list nat :=
  match ws with
  | [] => []
  | Some _ :: ws' => base :: window_addrs (S base) ws'
  | None :: ws' => window_addrs (S base) ws'
  end.

(** The windows of the detections, one pass after the other. *)
Fixpoint windows_from (zipped_templates : list (string * Stream))
    (delays : list (string * list delay_entry)) (shift_len : Qc)
    (detect_data : list Trace) (base : nat) (detections : list DETECTION)
    : result (list (string * list nat)) :=
  match detections with
  | [] => Ok []
  | detection :: rest =>
      ws ← mapM (window_of zipped_templates delays detection shift_len)
                detect_data;
      rest' ← windows_from zipped_templates delays shift_len detect_data
                (base + length detect_data) rest;
      Ok ((template_name detection, window_addrs base ws) :: rest')
  end.

(** The trace has a channel in the template of the detection. *)
Definition in_template (zipped_templates : list (string * Stream))
    (detection : DETECTION) (tr : Trace) : bool :=
  match filter (λ t, t.1 = template_name detection) zipped_templates with
  | [] => false
  | template :: _ =>
      bool_decide (select template.2 (station tr) (channel tr) ≠ [])
  end.

(** The channel code is one of a horizontal channel. *)
Definition is_S (chan : string) : bool :=
  bool_decide (last_slice chan ∈ ["E"; "N"]).

(** What an iteration of the channel loop works out for a template channel
    that has a window with a peak above the threshold: the code of the
    channel, the peak and the time of best alignment. *)
Definition candidate (detection : Stream) (min_cc : Qc) (tr : Trace)
    : option (string * Qc * Qc) :=
  image0 ← head (select detection (station tr) (channel tr));
  peak ← amax (normxcorr2 (data tr) (data image0));
  if bool_decide (min_cc < peak)
  then Some (channel tr, peak, picktime_of tr image0)
  else None.

(** Among the channels [done], the first horizontal channel of the station
    with a peak above the threshold. *)
Definition first_S (detection : Stream) (min_cc : Qc) (done : list Trace)
    (sta : string) : option (string * Qc * Qc) :=
  head (omap (λ tr, if is_S (channel tr) && bool_decide (station tr = sta)
                    then candidate detection min_cc tr else None) done).

(** The pick of a channel above the threshold, given the entry [best] of
    its station: a horizontal channel that does not beat the entry is
    picked with the code and the time of the entry. *)
Definition pick_of (best : option (string * Qc * Qc)) (tr : Trace)
    (own : string * Qc * Qc) : Pick :=
  let shown :=
    match best with
    | Some b =>
        if is_S (channel tr) && negb (bool_decide (b.1.2 < own.1.2))
        then b else own
    | None => own
    end in
  {| waveform_id := {| network_code := network tr; station_code := station tr;
                       channel_code := shown.1.1 |};
     time := shown.2;
     phase_hint := phase_of (channel tr) |}.

(** The picks of the channels [rest], the channels [done] being done. *)
Fixpoint picks_from (detection : Stream) (min_cc : Qc) (done rest : list Trace)
    : list Pick :=
  match rest with
  | [] => []
  | tr :: rest' =>
      match candidate detection min_cc tr with
      | Some own =>
          [pick_of (first_S detection min_cc done (station tr)) tr own]
      | None => []
      end ++ picks_from detection min_cc (done ++ [tr]) rest'
  end.

(** The event of one detection, without the tag of the task. *)
Definition event_of (template : Stream) (min_cc : Qc) (detection : Stream)
    : result Event :=
  snd <$> _channel_loop detection template min_cc 0.

(** The catalog built one detection after the other, without a pool:
    template by template, and for each template its detections in the
    order of [detect_streams]. *)
Definition catalog_in_order (zipped_templates : list (string * Stream))
    (detect_streams : list (string * Stream)) (min_cc : Qc)
    : result (list (list Event)) :=
  mapM (λ template : string * Stream,
          mapM (event_of template.2 min_cc)
               (filter (λ detect, detect.1 = template.1) detect_streams).*2)
       zipped_templates.

End lag_calc.

(** ** Concrete data for the examples *)

Module Fixtures.

(** A stand-in for the correlation primitive: the samples of the window
    are read as the correlation coefficients. *)
Definition xcorr (template image : list Qc) : list Qc := image.

(** A stand-in for [Trace.trim]: keeps the samples, moves the start. *)
Definition trim (tr : Trace) (start_time end_time : Qc) : result Trace :=
  Ok {| network := network tr; station := station tr; channel := channel tr;
        sampling_rate := sampling_rate tr; starttime := start_time;
        data := data tr |}.

Definition fifo : scheduler := λ _, 0%nat.
Definition lifo : scheduler := λ pending, pred (length pending).

Definition trace (sta chan : string) (start : Qc) (samples : list Qc) : Trace :=
  {| network := "NZ"; station := sta; channel := chan;
     sampling_rate := Q2Qc 100; starttime := start; data := samples |}.

Definition q (n : Z) (d : positive) : Qc := Q2Qc (n # d).

Definition min_cc : Qc := q 4 10.
Definition shift_len : Qc := q 2 10.

(** A template with a vertical and two horizontal channels of one
    station. *)
Definition template : Stream :=
  [ trace "STA1" "EHN" (q 1 100) [q 1 2];
    trace "STA1" "EHZ" 0 [q 1 2];
    trace "STA1" "EHE" (q 2 100) [q 1 2] ].

(** Windows with peak correlations 0.9 (Z), 0.8 (E) and 0.7 (N). *)
Definition windows : Stream :=
  [ trace "STA1" "EHZ" (q 10 1) [q 1 10; q 9 10; q 3 10];
    trace "STA1" "EHE" (q 10 1) [q 8 10; q 1 10];
    trace "STA1" "EHN" (q 10 1) [q 2 10; q 7 10];
    trace "STA2" "EHZ" (q 10 1) [q 9 10] ].

(** Three horizontal channels of one station with peaks 0.5, 0.9, 0.7. *)
Definition template3 : Stream :=
  [ trace "STA1" "EHE" 0 [q 1 2];
    trace "STA1" "EHN" 0 [q 1 2];
    trace "STA1" "HHE" 0 [q 1 2] ].

Definition windows3 : Stream :=
  [ trace "STA1" "EHE" (q 10 1) [q 5 10; q 1 10];
    trace "STA1" "EHN" (q 10 1) [q 1 10; q 9 10];
    trace "STA1" "HHE" (q 10 1) [q 7 10; q 2 10] ].

(** A window whose peak is exactly the threshold. *)
Definition windows_at_threshold : Stream :=
  [ trace "STA1" "EHZ" (q 10 1) [q 1 10; q 4 10] ].

Definition detections : list DETECTION :=
  [ {| template_name := "A"; detect_time := q 10 1 |};
    {| template_name := "B"; detect_time := q 20 1 |};
    {| template_name := "A"; detect_time := q 30 1 |} ].

Definition event (detection template : Stream) : Event :=
  match _channel_loop xcorr detection template min_cc 0 with
  | Ok (_, ev) => ev
  | Raise _ => {| picks := [] |}
  end.

(** The call of the examples: two templates, three detections. *)
Definition template_names : list string := ["A"; "B"].
Definition templates : list Stream := [template; template3].

Definition zipped_templates : list (string * Stream) :=
  (delay_loop (zip template_names templates)).1.

Definition delays : list (string * list delay_entry) :=
  match (delay_loop (zip template_names templates)).2 with
  | Ok delays => delays
  | Raise _ => []
  end.

(** The heap and the windows once the windows of the detections are cut. *)
Definition heap : list Trace :=
  (mapM (detection_window trim zipped_templates delays shift_len
           (seq 0 (length windows))) detections windows).1.

Definition detect_streams : list (string * list nat) :=
  match (mapM (detection_window trim zipped_templates delays shift_len
                 (seq 0 (length windows))) detections windows).2 with
  | Ok detect_streams => detect_streams
  | Raise _ => []
  end.

(** The delay table of the call with the first template alone. *)
Definition delays_A : list (string * list delay_entry) :=
  match (delay_loop (zip ["A"] [template])).2 with
  | Ok delays => delays
  | Raise _ => []
  end.

(** The state the channel loop ends in for the three horizontal
    channels. *)
Definition final_state3 : loop_state :=
  match foldM (channel_step xcorr windows3 min_cc) loop_init template3 with
  | Ok st => st
  | Raise _ => loop_init
  end.

(** The windows with one more trace for a station and a channel they have
    already. *)
Definition windows_twice : Stream :=
  windows ++ [ trace "STA1" "EHZ" (q 11 1) [q 6 10; q 2 10] ].

(** The stream of the windows of the [k]-th detection of the examples, as
    values. *)
Definition window_stream (k : nat) : Stream :=
  match detections !! k with
  | Some detection =>
      omap (λ tr, match window_of trim zipped_templates delays detection
                          shift_len tr with
                  | Ok w => w
                  | Raise _ => None
                  end) windows
  | None => []
  end.

(** The catalog of the call of the examples. *)
Definition catalog : Catalog :=
  match returned (lag_calc xcorr 2 trim (λ _, lifo) detections windows
                    template_names templates shift_len min_cc) with
  | Ok events => events
  | Raise _ => []
  end.

Definition first_pick (ev : Event) : Pick :=
  match picks ev with
  | p :: _ => p
  | [] => {| waveform_id := {| network_code := ""; station_code := "";
                               channel_code := "" |};
             time := 0; phase_hint := None |}
  end.

End Fixtures.

(** * Properties *)

(** ** The result monad *)

Lemma result_bind_Ok {A B} (f : A → result B) (r : result A) (b : B) :
  r ≫= f = Ok b ↔ ∃ a, r = Ok a ∧ f a = Ok b.
Proof.
  destruct r as [a|e]; simpl; split.
  - eauto.
  - by intros (? & [= ->] & ?).
  - done.
  - by intros (? & ? & ?).
Qed.

Lemma mapM_result_length {A B} (f : A → result B) l ys :
  mapM f l = Ok ys → length ys = length l.
Proof.
  revert ys. induction l as [|x l IH]; intros ys; simpl.
  - by intros [= <-].
  - destruct (f x) as [y|]; simpl; [|done].
    destruct (mapM f l) as [ys'|]; simpl; [|done].
    intros [= <-]. simpl. f_equal. by apply IH.
Qed.

Lemma mapM_result_ext {A B} (f g : A → result B) l :
  (∀ x, x ∈ l → f x = g x) → mapM f l = mapM g l.
Proof.
  induction l as [|x l IH]; intros Hfg; [done|]. simpl.
  rewrite (Hfg x) by left. rewrite IH; [done|].
  intros y Hy. apply Hfg. by right.
Qed.

(** ** Stable sorting by a key *)

Section sort_by_facts.
Context {A K : Type} (le : K → K → Prop) `{!RelDecision le} (key : A → K).

Let R : relation A := λ x y, le (key x) (key y).

Lemma insert_by_Permutation x l : insert_by le key x l ≡ₚ x :: l.
Proof.
  induction l as [|y l IH]; simpl; [done|].
  case_bool_decide; [done|]. rewrite IH. apply Permutation_swap.
Qed.

Lemma sort_by_Permutation l : sort_by le key l ≡ₚ l.
Proof.
  induction l as [|x l IH]; simpl; [done|].
  rewrite insert_by_Permutation. by f_equiv.
Qed.

Lemma sort_by_length l : length (sort_by le key l) = length l.
Proof. by rewrite sort_by_Permutation. Qed.

Lemma insert_by_HdRel x y l :
  R y x → HdRel R y l → HdRel R y (insert_by le key x l).
Proof.
  intros Hyx Hl. destruct l as [|z l]; simpl.
  - by constructor.
  - case_bool_decide; constructor; [done|]. by inversion Hl.
Qed.

Lemma insert_by_Sorted `{!Total le} x l :
  Sorted R l → Sorted R (insert_by le key x l).
Proof.
  induction 1 as [|y l Hl IH Hy]; simpl.
  - by repeat constructor.
  - case_bool_decide as Hxy.
    + constructor; [by constructor|by constructor].
    + constructor; [done|]. apply insert_by_HdRel; [|done].
      unfold R. by destruct (total le (key x) (key y)).
Qed.

Lemma sort_by_Sorted `{!Total le} l : Sorted R (sort_by le key l).
Proof.
  induction l as [|x l IH]; simpl; [constructor|].
  by apply insert_by_Sorted.
Qed.

(** Sorting a list that is in order already leaves it as it is. *)
Lemma sort_by_Sorted_id l : Sorted R l → sort_by le key l = l.
Proof.
  induction 1 as [|x l Hl IH Hx]; simpl; [done|].
  rewrite IH. destruct Hx as [|y l Hxy]; simpl; [done|].
  by rewrite bool_decide_eq_true_2.
Qed.

Lemma sort_by_idemp `{!Total le} l :
  sort_by le key (sort_by le key l) = sort_by le key l.
Proof. apply sort_by_Sorted_id, sort_by_Sorted. Qed.

(** The first element of the sorted list has the least key. *)
Lemma sort_by_head_least `{!Total le, !Transitive le} l first rest x :
  sort_by le key l = first :: rest → x ∈ l → le (key first) (key x).
Proof.
  intros Hs Hx.
  assert (Hsorted : StronglySorted R (first :: rest)).
  { rewrite <-Hs. apply Sorted_StronglySorted; [|apply sort_by_Sorted].
    intros a b c. unfold R. apply transitivity. }
  rewrite <-(sort_by_Permutation l), Hs in Hx.
  apply StronglySorted_inv in Hsorted as [_ Hall].
  apply elem_of_cons in Hx as [->|Hx].
  - by destruct (total le (key first) (key first)).
  - by eapply Forall_forall in Hall.
Qed.

Lemma sort_by_head_elem_of l first rest :
  sort_by le key l = first :: rest → first ∈ l.
Proof.
  intros Hs. rewrite <-(sort_by_Permutation l), Hs. left.
Qed.
End sort_by_facts.

(** ** The delay table *)

Lemma Stream_sort_idemp st : Stream_sort (Stream_sort st) = Stream_sort st.
Proof. apply (sort_by_idemp Qcle starttime). Qed.

Lemma Stream_sort_nil_inv st : Stream_sort st = [] → st = [].
Proof.
  intros Hs. apply nil_length_inv. unfold Stream_sort in Hs.
  by rewrite <-(sort_by_length Qcle starttime st), Hs.
Qed.

Lemma template_delays_sorted snapshot stream temp_delays first rest :
  Stream_sort stream = first :: rest →
  snapshot ≠ [] →
  template_delays snapshot stream temp_delays =
    (first :: rest,
     Ok (temp_delays ++
           ((λ tr, (station tr, channel tr, starttime tr - starttime first))
              <$> snapshot))).
Proof.
  revert stream temp_delays.
  induction snapshot as [|tr snapshot IH]; intros stream acc Hs Hne; [done|].
  simpl. rewrite Hs. destruct snapshot as [|tr' snapshot].
  - done.
  - rewrite (IH (first :: rest)); [|by rewrite <-Hs, Stream_sort_idemp|done].
    by rewrite <-(assoc_L (++)).
Qed.

Lemma template_delays_spec template :
  template_delays template template [] = (Stream_sort template, Ok (delays_of template)).
Proof.
  destruct template as [|tr template]; [done|].
  destruct (Stream_sort (tr :: template)) as [|first rest] eqn:Hs.
  { by apply Stream_sort_nil_inv in Hs. }
  rewrite (template_delays_sorted _ _ _ first rest Hs) by done.
  unfold delays_of, min_starttime. by rewrite Hs.
Qed.

Lemma delay_loop_spec zipped_templates :
  delay_loop zipped_templates =
    ((λ template : string * Stream, (template.1, Stream_sort template.2))
       <$> zipped_templates,
     Ok ((λ template : string * Stream, (template.1, delays_of template.2))
           <$> zipped_templates)).
Proof.
  induction zipped_templates as [|[name template] zipped IH]; [done|].
  simpl. rewrite template_delays_spec, IH. done.
Qed.

Lemma min_starttime_least template tr :
  tr ∈ template → min_starttime template ≤ starttime tr.
Proof.
  intros Htr. unfold min_starttime.
  destruct (Stream_sort template) as [|first rest] eqn:Hs.
  { apply Stream_sort_nil_inv in Hs. subst. by apply elem_of_nil in Htr. }
  by apply (sort_by_head_least Qcle starttime template first rest).
Qed.

Lemma min_starttime_attained template :
  template ≠ [] → ∃ tr, tr ∈ template ∧ starttime tr = min_starttime template.
Proof.
  intros Hne. unfold min_starttime.
  destruct (Stream_sort template) as [|first rest] eqn:Hs.
  { by apply Stream_sort_nil_inv in Hs. }
  exists first. split; [|done].
  by apply (sort_by_head_elem_of Qcle starttime template first rest).
Qed.

Lemma Qc_sub_nonneg (x m : Qc) : m ≤ x → 0 ≤ x - m.
Proof.
  intros Hm. apply (Qcplus_le_mono_r _ _ m).
  by replace (x - m + m) with x by ring; rewrite Qcplus_0_l.
Qed.

(** C7. The delay table has, for every template and in the order of the
    templates, one entry for each channel of the template; the offset of the
    entry is the start time of the channel less the least start time of the
    channels of that template, a start time that one of the channels has
    when there is a channel at all; every offset is at least 0, and it is 0
    for a channel that starts at the least start time. *)
Theorem delay_table_offsets (zipped_templates : list (string * Stream)) :
  ∃ delays,
    (delay_loop zipped_templates).2 = Ok delays ∧
    Forall2 (λ (template : string * Stream) (delay : string * list delay_entry),
      delay.1 = template.1 ∧
      ∃ least : Qc,
        (template.2 ≠ [] → ∃ tr, tr ∈ template.2 ∧ starttime tr = least) ∧
        (∀ tr, tr ∈ template.2 → least ≤ starttime tr) ∧
        Forall2 (λ (tr : Trace) (d : delay_entry),
          d.1.1 = station tr ∧ d.1.2 = channel tr ∧
          d.2 = starttime tr - least ∧
          0 ≤ d.2 ∧
          (starttime tr = least → d.2 = 0)) template.2 delay.2)
      zipped_templates delays.
Proof.
  rewrite delay_loop_spec. eexists. split; [done|].
  apply Forall2_fmap_r, Forall_Forall2_diag, Forall_forall.
  intros [name template] _. simpl. split; [done|].
  exists (min_starttime template). split_and!.
  - apply min_starttime_attained.
  - apply min_starttime_least.
  - apply Forall2_fmap_r, Forall_Forall2_diag, Forall_forall.
    intros tr Htr. simpl. split_and!; try done.
    + by apply Qc_sub_nonneg, min_starttime_least.
    + intros ->. ring.
Qed.

(** ** The templates after the call *)

Section templates_after.
Context (normxcorr2 : list Qc → list Qc → list Qc) (cpu_count : positive)
  (trim_value : Trace → Qc → Qc → result Trace).

Lemma delay_loop_streams (template_names : list string) (templates : list Stream) :
  ((λ template : string * Stream, (template.1, Stream_sort template.2))
     <$> zip template_names templates).*2
  ++ drop (length ((λ template : string * Stream,
                      (template.1, Stream_sort template.2))
                     <$> zip template_names templates)) templates
  = (Stream_sort <$> take (length template_names) templates)
    ++ drop (length template_names) templates.
Proof.
  revert templates.
  induction template_names as [|name names IH]; intros [|template templates];
    simpl; try done.
  f_equal. apply IH.
Qed.

Lemma lag_calc_templates_after scheds detections detect_data template_names
    templates shift_len min_cc :
  templates_after (lag_calc normxcorr2 cpu_count trim_value scheds detections
                     detect_data template_names templates shift_len min_cc)
  = (Stream_sort <$> take (length template_names) templates)
    ++ drop (length template_names) templates.
Proof.
  unfold lag_calc. rewrite delay_loop_spec.
  repeat case_match; simpl; apply delay_loop_streams.
Qed.

(** C10. After a call of [lag_calc], whatever it returns or raises, every
    template stream that came with a name holds the traces it held
    before, unchanged, in the order of their start times: the stream the
    caller passed is left sorted. *)
Theorem lag_calc_sorts_templates scheds detections detect_data template_names
    templates shift_len min_cc (k : nat) (name : string) (template : Stream) :
  template_names !! k = Some name →
  templates !! k = Some template →
  ∃ template',
    templates_after (lag_calc normxcorr2 cpu_count trim_value scheds
                       detections detect_data template_names templates
                       shift_len min_cc) !! k = Some template' ∧
    template' = Stream_sort template ∧
    template' ≡ₚ template ∧
    Sorted (λ tr1 tr2, starttime tr1 ≤ starttime tr2) template'.
Proof.
  intros Hname Htemplate. exists (Stream_sort template). split_and!.
  - rewrite lag_calc_templates_after.
    apply lookup_lt_Some in Hname as Hk.
    apply lookup_lt_Some in Htemplate as Hk'.
    rewrite lookup_app_l by (rewrite length_fmap, length_take; lia).
    rewrite list_lookup_fmap, lookup_take_lt by done.
    by rewrite Htemplate.
  - done.
  - apply (sort_by_Permutation Qcle starttime).
  - apply (sort_by_Sorted Qcle starttime).
Qed.
End templates_after.

(** ** The channel loop *)

Section channel_loop_facts.
Context (normxcorr2 : list Qc → list Qc → list Qc).
Context (detection template : Stream) (min_cc : Qc).

Abbreviation step := (channel_step normxcorr2 detection min_cc).
Abbreviation inv := (loop_inv normxcorr2 detection template min_cc).
Abbreviation above := (above_threshold normxcorr2 detection min_cc).

Lemma loop_inv_init : inv loop_init.
Proof. split; [constructor|]. intros sta best. simpl. by rewrite lookup_empty. Qed.

Lemma loop_inv_append st net sta chan t phase tr image0 peak :
  inv st →
  pick_origin normxcorr2 detection template min_cc
    {| waveform_id := {| network_code := net; station_code := sta;
                         channel_code := chan |};
       time := t; phase_hint := phase |} tr image0 peak →
  inv (append_pick st net sta chan t phase).
Proof.
  intros [Hpicks Hbest] Horigin. split; [|done]. simpl.
  apply Forall_app_2; [done|]. apply Forall_singleton. eauto.
Qed.

(** An iteration keeps the invariant, and appends one pick when the peak
    of the channel is above the threshold and none otherwise. *)
Lemma channel_step_inv st tr st' :
  inv st → tr ∈ template → step st tr = Ok st' →
  inv st' ∧
  length (ev_picks st') =
    (length (ev_picks st) + if above tr then 1 else 0)%nat.
Proof.
  intros Hinv Htr. unfold channel_step, above_threshold.
  destruct (select detection (station tr) (channel tr))
    as [|image0 rest] eqn:Himage.
  { intros [= <-]. split; [done|lia]. }
  unfold np_amax.
  destruct (amax (normxcorr2 (data tr) (data image0))) as [peak|] eqn:Hpeak;
    [|done].
  simpl. case_bool_decide as Hcc; [|intros [= <-]; split; [done|lia]].
  assert (Horigin : ∀ net phase,
    phase = phase_of (channel tr) →
    pick_origin normxcorr2 detection template min_cc
      {| waveform_id := {| network_code := net; station_code := station tr;
                           channel_code := channel tr |};
         time := picktime_of normxcorr2 tr image0; phase_hint := phase |}
      tr image0 peak).
  { intros net phase ->. unfold pick_origin. simpl.
    rewrite Himage. by split_and!. }
  assert (Hlen : ∀ st0 net sta chan t phase,
    ev_picks st0 = ev_picks st →
    length (ev_picks (append_pick st0 net sta chan t phase)) =
      (length (ev_picks st) + 1)%nat).
  { intros st0 net sta chan t phase Hst0. simpl.
    by rewrite length_app, Hst0. }
  case_bool_decide as HZ.
  { intros [= <-]. split; [|by apply Hlen].
    eapply loop_inv_append; [done|]. apply Horigin.
    unfold phase_of. by rewrite bool_decide_eq_true_2. }
  case_bool_decide as HEN.
  - assert (HS : Some "S" = phase_of (channel tr)).
    { unfold phase_of. rewrite bool_decide_eq_false_2 by done.
      by rewrite bool_decide_eq_true_2. }
    destruct (s_stachans st !! station tr) as [best|] eqn:Hbest.
    + case_bool_decide as Hbetter; intros [= <-].
      * split; [|by apply Hlen].
        eapply loop_inv_append; [done|]. by apply Horigin.
      * split; [|by apply Hlen].
        destruct Hinv as [Hpicks Hbests].
        destruct (Hbests _ _ Hbest) as (tr0 & image1 & Hor).
        eapply loop_inv_append; [done|].
        destruct Hor as (? & ? & ? & ? & ? & ? & ? & ?).
        unfold pick_origin. simpl in *. by split_and!.
    + intros [= <-]. split; [|by apply Hlen].
      eapply loop_inv_append; [|by apply Horigin].
      destruct Hinv as [Hpicks Hbests]. split; [done|]. simpl.
      intros sta best. rewrite lookup_insert.
      case_decide as Hsta; [|by apply Hbests].
      intros [= <-]. subst sta. exists tr, image0. simpl.
      by apply Horigin.
  - intros [= <-]. split; [|by apply Hlen].
    eapply loop_inv_append; [done|]. apply Horigin.
    unfold phase_of. by rewrite !bool_decide_eq_false_2.
Qed.

Lemma channel_fold_inv traces st st' :
  inv st → traces ⊆ template →
  foldM step st traces = Ok st' →
  inv st' ∧
  length (ev_picks st') = (length (ev_picks st) + length (filter above traces))%nat.
Proof.
  revert st. induction traces as [|tr traces IH]; intros st Hinv Hsub.
  - intros [= <-]. split; [done|]. simpl. lia.
  - simpl. intros (st1 & Hstep & Hfold)%result_bind_Ok.
    apply channel_step_inv in Hstep as [Hinv1 Hlen1];
      [|done|apply Hsub; left].
    apply IH in Hfold as [Hinv' Hlen'];
      [|done|intros x Hx; apply Hsub; by right].
    split; [done|]. rewrite Hlen', Hlen1.
    destruct (above tr) eqn:Habove.
    + rewrite filter_cons_True by (by apply Is_true_true). simpl. lia.
    + rewrite filter_cons_False by (by apply Is_true_false). lia.
Qed.

(** The picks of the event of a detection. *)
Lemma channel_loop_picks i j ev :
  _channel_loop normxcorr2 detection template min_cc i = Ok (j, ev) →
  j = i ∧
  Forall (λ p, ∃ tr image0 peak,
            pick_origin normxcorr2 detection template min_cc p tr image0 peak)
         (picks ev) ∧
  length (picks ev) = length (filter above template).
Proof.
  unfold _channel_loop. intros (st & Hfold & [= <- <-])%result_bind_Ok.
  apply channel_fold_inv in Hfold as [[Hpicks _] Hlen];
    [|apply loop_inv_init|done].
  by split_and!.
Qed.
End channel_loop_facts.

(** ** The maximum and its position *)

Lemma amax_None l : amax l = None → l = [].
Proof. destruct l as [|x l]; [done|]. simpl. by destruct (amax l). Qed.

(** [argmax] is the first position that holds the maximum. *)
Lemma amax_argmax l m :
  amax l = Some m →
  l !! argmax l = Some m ∧
  (∀ x, x ∈ l → x ≤ m) ∧
  (∀ k x, (k < argmax l)%nat → l !! k = Some x → x < m).
Proof.
  revert m. induction l as [|x l IH]; intros m; [done|]. simpl.
  destruct (amax l) as [m'|] eqn:Hl.
  - destruct (IH m' eq_refl) as (Hat & Hmax & Hfirst).
    case_bool_decide as Hle; intros [= <-].
    + split_and!; [done| |intros k y Hk; lia].
      intros y [->|Hy]%elem_of_cons; [done|].
      by trans m'; [apply Hmax|].
    + apply Qclt_nge in Hle. split_and!; [done| |].
      * intros y [->|Hy]%elem_of_cons; [by apply Qclt_le_weak|by apply Hmax].
      * intros [|k] y Hk; simpl; [by intros [= <-]|].
        apply Hfirst. lia.
  - apply amax_None in Hl as ->. intros [= <-]. split_and!; [done| |].
    + by intros y ->%list_elem_of_singleton.
    + intros k y Hk. lia.
Qed.

Lemma filter_none {A} (P : A → Prop) `{!∀ x, Decision (P x)} (l : list A) :
  (∀ x, x ∈ l → ¬ P x) → filter P l = [].
Proof.
  induction l as [|x l IH]; intros Hl; [done|].
  rewrite filter_cons_False by (apply Hl; left).
  apply IH. intros y Hy. apply Hl. by right.
Qed.

(** ** What the channel loop returns *)

Section channel_loop_claims.
Context (normxcorr2 : list Qc → list Qc → list Qc).

(** C3. Every pick of the event of a detection goes back to a channel of
    the template whose window has a peak correlation strictly above
    [min_cc], and the event has as many picks as the template has such
    channels: a channel whose peak is [min_cc] or less adds no pick, and
    there is no pick at all when no channel is above the threshold. *)
Theorem picks_above_min_cc detection template min_cc i j ev :
  _channel_loop normxcorr2 detection template min_cc i = Ok (j, ev) →
  (∀ p, p ∈ picks ev →
     ∃ tr image0 peak,
       tr ∈ template ∧
       station tr = station_code (waveform_id p) ∧
       channel tr = channel_code (waveform_id p) ∧
       head (select detection (station tr) (channel tr)) = Some image0 ∧
       amax (normxcorr2 (data tr) (data image0)) = Some peak ∧
       min_cc < peak) ∧
  length (picks ev) =
    length (filter (above_threshold normxcorr2 detection min_cc) template) ∧
  ((∀ tr image0 peak,
      tr ∈ template →
      head (select detection (station tr) (channel tr)) = Some image0 →
      amax (normxcorr2 (data tr) (data image0)) = Some peak →
      peak ≤ min_cc) →
   picks ev = []).
Proof.
  intros (_ & Hpicks & Hlen)%channel_loop_picks. split_and!.
  - intros p Hp. eapply Forall_forall in Hpicks as (tr & image0 & peak & Hor);
      [|done].
    destruct Hor as (? & ? & ? & ? & ? & ? & _).
    by exists tr, image0, peak.
  - done.
  - intros Hbelow. apply nil_length_inv. rewrite Hlen.
    rewrite filter_none; [done|].
    intros tr Htr. unfold above_threshold.
    destruct (select detection (station tr) (channel tr))
      as [|image0 rest] eqn:Himage; [intros []|].
    destruct (amax (normxcorr2 (data tr) (data image0))) as [peak|] eqn:Hpeak;
      [|intros []].
    rewrite bool_decide_eq_false_2; [intros []|].
    apply Qcle_not_lt. eapply Hbelow; [done| |done]. by rewrite Himage.
Qed.

(** C8. The time of every pick is the start time of the window of the
    channel the pick names plus the position of the maximum of the
    correlation of that channel times the sample interval of the window;
    the phase hint is P when the channel code ends in Z, S when it ends in
    E or N, and none otherwise. *)
Theorem pick_time_and_phase detection template min_cc i j ev p :
  _channel_loop normxcorr2 detection template min_cc i = Ok (j, ev) →
  p ∈ picks ev →
  ∃ tr image0 peak_index,
    tr ∈ template ∧
    station tr = station_code (waveform_id p) ∧
    channel tr = channel_code (waveform_id p) ∧
    head (select detection (station tr) (channel tr)) = Some image0 ∧
    (∃ peak,
       normxcorr2 (data tr) (data image0) !! peak_index = Some peak ∧
       (∀ c, c ∈ normxcorr2 (data tr) (data image0) → c ≤ peak) ∧
       (∀ k c, (k < peak_index)%nat →
          normxcorr2 (data tr) (data image0) !! k = Some c → c < peak)) ∧
    time p =
      starttime image0 + Qc_of_Z (Z.of_nat peak_index) * delta image0 ∧
    (last_slice (channel_code (waveform_id p)) = "Z" →
       phase_hint p = Some "P") ∧
    (last_slice (channel_code (waveform_id p)) = "E" ∨
     last_slice (channel_code (waveform_id p)) = "N" →
       phase_hint p = Some "S") ∧
    (last_slice (channel_code (waveform_id p)) ∉ ["Z"; "E"; "N"] →
       phase_hint p = None).
Proof.
  intros (_ & Hpicks & _)%channel_loop_picks Hp.
  eapply Forall_forall in Hpicks as (tr & image0 & peak & Hor); [|done].
  destruct Hor as (Htr & Hsta & Hchan & Himage & Hpeak & _ & Htime & Hphase).
  exists tr, image0, (argmax (normxcorr2 (data tr) (data image0))).
  rewrite <-Hchan, Hphase. unfold phase_of.
  split_and!; try done.
  - exists peak. by apply amax_argmax.
  - intros ->. by rewrite bool_decide_eq_true_2.
  - intros [HE|HN]; rewrite bool_decide_eq_false_2, bool_decide_eq_true_2;
      try done; rewrite ?HE, ?HN; try done; repeat constructor.
  - intros Hother. rewrite !bool_decide_eq_false_2; [done| |].
    + intros HEN. apply Hother. by right.
    + intros HZ. apply Hother. rewrite HZ. left.
Qed.
End channel_loop_claims.

(** C1. Two horizontal channels of one station above the threshold: the
    event has two S picks for the station. *)
Lemma two_S_picks_for_one_station :
  ∃ ev,
    _channel_loop Fixtures.xcorr Fixtures.windows Fixtures.template
      Fixtures.min_cc 0 = Ok (0%nat, ev) ∧
    (λ p, (station_code (waveform_id p), channel_code (waveform_id p),
           phase_hint p)) <$> picks ev =
      [("STA1", "EHN", Some "S"); ("STA1", "EHZ", Some "P");
       ("STA1", "EHE", Some "S")] ∧
    length (filter (λ p, station_code (waveform_id p) = "STA1" ∧
                         phase_hint p = Some "S") (picks ev)) = 2%nat.
Proof. eexists. split; [vm_compute; reflexivity|]. by vm_compute. Qed.

(** C5. Horizontal channels with peaks 0.5, 0.9 and 0.7, in this order:
    the second replaces nothing in [s_stachans], which still holds the
    first channel and its peak when the loop ends, and the third, compared
    with 0.5, is picked with its own code. *)
Lemma best_is_not_updated :
  ∃ st,
    foldM (channel_step Fixtures.xcorr Fixtures.windows3 Fixtures.min_cc)
      loop_init Fixtures.template3 = Ok st ∧
    (λ best : string * Qc * Qc, (best.1.1, best.1.2)) <$>
      s_stachans st !! "STA1" = Some ("EHE", Fixtures.q 5 10) ∧
    (λ p, channel_code (waveform_id p)) <$> ev_picks st =
      ["EHE"; "EHN"; "HHE"].
Proof. eexists. split; [vm_compute; reflexivity|]. by vm_compute. Qed.

(** ** The pool and the order of the catalog *)

Lemma mapM_result_Forall2 {A B} (f : A → result B) l ys :
  mapM f l = Ok ys ↔ Forall2 (λ x y, f x = Ok y) l ys.
Proof.
  revert ys. induction l as [|x l IH]; intros ys; simpl.
  - split; [intros [= <-]; constructor|by inversion 1].
  - split.
    + destruct (f x) as [y|] eqn:Hx; simpl; [|done].
      destruct (mapM f l) as [ys'|]; simpl; [|done].
      intros [= <-]. constructor; [done|]. by apply IH.
    + inversion 1 as [|? y ? ys' Hx Hl]; simplify_eq. rewrite Hx. simpl.
      apply IH in Hl. rewrite Hl. done.
Qed.

Section pool_facts.
Context {R : Type} (sched : scheduler) (task : nat → R).

(** Whatever the order of completion, the pool records for a task the
    result of that task. *)
Lemma run_pool_results fuel pending results :
  Forall (λ p, p.2 = task p.1) results →
  Forall (λ p, p.2 = task p.1) (run_pool sched task fuel pending results).
Proof.
  revert pending results. induction fuel as [|fuel IH]; intros pending results Hdone;
    simpl; [done|].
  destruct (pending !! _) as [i|]; [|done].
  apply IH, Forall_app_2; [done|]. by apply Forall_singleton.
Qed.

Lemma AsyncResult_get_task results i :
  Forall (λ p, p.2 = task p.1) results →
  AsyncResult_get task results i = task i.
Proof.
  intros Hdone. unfold AsyncResult_get.
  destruct (list_find _ results) as [[k [i' r]]|] eqn:Hfind; [|done].
  apply list_find_Some in Hfind as (Hk & Hi & _). simpl in Hi. subst i'.
  eapply Forall_forall in Hdone; [|by eapply list_elem_of_lookup_2].
  done.
Qed.
End pool_facts.

Section dispatch_facts.
Context (normxcorr2 : list Qc → list Qc → list Qc) (cpu_count : positive).
Context (template : Stream) (min_cc : Qc).

Abbreviation event := (event_of normxcorr2 template min_cc).

(** The tag of a task is the number it was given. *)
Lemma channel_loop_tag detection i :
  _channel_loop normxcorr2 detection template min_cc i =
    (λ ev, (i, ev)) <$> event detection.
Proof.
  unfold event_of, _channel_loop. by destruct (foldM _ _ _).
Qed.

Lemma mapM_tasks (task : nat → result (nat * Event)) detection_streams k :
  (∀ j ds, detection_streams !! j = Some ds →
     task (k + j)%nat = (λ ev, ((k + j)%nat, ev)) <$> event ds) →
  mapM task (seq k (length detection_streams)) =
    (λ evs, zip (seq k (length evs)) evs) <$> mapM event detection_streams.
Proof.
  revert k. induction detection_streams as [|ds l IH]; intros k Htask;
    [done|].
  simpl. specialize (Htask 0%nat ds eq_refl) as Hk.
  rewrite Nat.add_0_r in Hk. rewrite Hk, (IH (S k)).
  - destruct (event ds) as [ev|]; simpl; [|done].
    by destruct (mapM event l).
  - intros j ds' Hj.
    replace (S k + j)%nat with (k + S j)%nat by lia. by apply Htask.
Qed.

Lemma tagged_Sorted (evs : list Event) k :
  Sorted (λ p1 p2 : nat * Event, Nat.le p1.1 p2.1) (zip (seq k (length evs)) evs).
Proof.
  revert k. induction evs as [|ev evs IH]; intros k; simpl; [constructor|].
  constructor; [apply IH|].
  destruct evs; simpl; constructor. simpl. unfold Nat.le. lia.
Qed.

(** The catalog of [_day_loop] is the list of the events of the
    detections in the order of the detections, whatever the order in which
    the workers complete. *)
Lemma day_loop_in_order sched detection_streams :
  detection_streams ≠ [] →
  _day_loop normxcorr2 cpu_count sched detection_streams template min_cc =
    mapM event detection_streams.
Proof.
  intros Hne. unfold _day_loop.
  rewrite bool_decide_eq_false_2.
  2:{ destruct detection_streams; [done|]. case_bool_decide; simpl; lia. }
  rewrite (mapM_result_ext _
    (day_task normxcorr2 detection_streams template min_cc)).
  2:{ intros i _. apply AsyncResult_get_task, run_pool_results. constructor. }
  rewrite (mapM_tasks _ detection_streams 0).
  2:{ intros j ds Hj. unfold day_task. simpl. rewrite Hj. simpl.
      apply channel_loop_tag. }
  destruct (mapM event detection_streams) as [evs|]; simpl; [|done].
  rewrite sort_by_Sorted_id by apply tagged_Sorted.
  by rewrite snd_zip by (rewrite length_seq; lia).
Qed.
End dispatch_facts.

Section template_loop_facts.
Context (normxcorr2 : list Qc → list Qc → list Qc) (cpu_count : positive).

(** The loop over the templates appends, template after template, the
    events of the detections of the template. *)
Lemma template_loop_in_order scheds k zipped_templates detect_streams min_cc
    initial_cat :
  template_loop normxcorr2 cpu_count scheds k zipped_templates detect_streams
    min_cc initial_cat =
  (λ groups, initial_cat ++ concat groups) <$>
    catalog_in_order normxcorr2 zipped_templates detect_streams min_cc.
Proof.
  revert k initial_cat.
  induction zipped_templates as [|template rest IH]; intros k initial_cat.
  { simpl. by rewrite (right_id_L [] (++)). }
  simpl.
  destruct ((filter (λ detect : string * Stream, detect.1 = template.1)
               detect_streams).*2) as [|ds tds] eqn:Htds.
  - simpl. rewrite IH. unfold catalog_in_order.
    by destruct (mapM _ rest).
  - rewrite bool_decide_eq_true_2 by (simpl; lia).
    rewrite day_loop_in_order by done.
    destruct (mapM _ (ds :: tds)) as [evs|]; simpl; [|done].
    rewrite IH. unfold catalog_in_order.
    destruct (mapM _ rest); simpl; [|done].
    by rewrite (assoc_L (++)).
Qed.
End template_loop_facts.

(** ** Cutting the windows *)

Section window_facts.
Context (trim_value : Trace → Qc → Qc → result Trace).
Context (zipped_templates : list (string * Stream)).
Context (delays : list (string * list delay_entry)) (shift_len : Qc).

Abbreviation wstep := (window_step trim_value zipped_templates delays).
Abbreviation wof := (window_of trim_value zipped_templates delays).

Lemma heap_copy_lookup (h : list Trace) (v : Trace) a :
  (a < length h)%nat → (h ++ [v]) !!! a = h !!! a.
Proof. intros Ha. by apply lookup_total_app_l. Qed.

Lemma heap_copy_new (h : list Trace) (v : Trace) :
  (h ++ [v]) !!! length h = v.
Proof.
  rewrite lookup_total_app_r by lia. by rewrite Nat.sub_diag.
Qed.

Lemma heap_trim_new (h : list Trace) (v w : Trace) :
  <[length h := w]> (h ++ [v]) = h ++ [w].
Proof.
  rewrite insert_app_r_alt by lia. by rewrite Nat.sub_diag.
Qed.

(** An iteration over a trace of the continuous data adds one object at
    the end of the heap and changes nothing else. *)
Lemma window_step_spec detection detect_stream a h :
  (a < length h)%nat →
  wstep detection shift_len detect_stream a h =
    match wof detection shift_len (h !!! a) with
    | Ok w => (h ++ [default (h !!! a) w],
               Ok (detect_stream ++ window_addrs (length h) [w]))
    | Raise e => (h ++ [h !!! a], Raise e)
    end.
Proof.
  intros Ha. unfold window_step, window_of.
  unfold mbind, heapM_bind, Trace_copy, lift, read, Trace_trim, mret, heapM_ret.
  simpl. rewrite !heap_copy_lookup by done.
  destruct (index0 (filter _ zipped_templates)) as [template|e]; simpl;
    [|done].
  destruct (select _ _ _) as [|template0 ?]; simpl.
  { by rewrite (right_id_L [] (++)). }
  destruct (py_div _ _) as [template_len|]; simpl; [|done].
  destruct (index0 (filter _ delays)) as [delay|]; simpl; [|done].
  destruct (index0 (filter _ delay.2)) as [d|]; simpl; [|done].
  rewrite heap_copy_new.
  destruct (trim_value _ _ _) as [w|]; simpl; [|done].
  by rewrite heap_trim_new.
Qed.

(** The addresses of the windows of a pass are new: they lie past the
    heap the pass started with, and they grow. *)
Lemma window_addrs_bounds base ws a :
  a ∈ window_addrs base ws → (base ≤ a < base + length ws)%nat.
Proof.
  revert base. induction ws as [|[w|] ws IH]; intros base; simpl.
  - by intros ?%elem_of_nil.
  - intros [->|Ha%IH]%elem_of_cons; lia.
  - intros Ha%IH. lia.
Qed.

Lemma window_addrs_sorted base ws : StronglySorted lt (window_addrs base ws).
Proof.
  revert base. induction ws as [|[w|] ws IH]; intros base; simpl;
    [constructor| |apply IH].
  constructor; [apply IH|]. apply Forall_forall.
  intros a Ha%window_addrs_bounds. lia.
Qed.

(** A pass over traces that the heap holds at [addrs]. *)
Lemma window_fold_spec detection addrs (traces : list Trace) detect_stream h :
  Forall2 (λ a tr, h !! a = Some tr) addrs traces →
  ∃ new,
    foldM (wstep detection shift_len) detect_stream addrs h =
      (h ++ new,
       (λ ws, detect_stream ++ window_addrs (length h) ws) <$>
         mapM (wof detection shift_len) traces) ∧
    ∀ ws, mapM (wof detection shift_len) traces = Ok ws →
          new = window_objects traces ws.
Proof.
  revert traces detect_stream h.
  induction addrs as [|a addrs IH]; intros traces detect_stream h Hheap.
  { apply Forall2_nil_inv_l in Hheap as ->. exists []. simpl.
    rewrite !(right_id_L [] (++)). split; [done|]. by intros ws [= <-]. }
  apply Forall2_cons_inv_l in Hheap as (tr & traces' & Ha & Hrest & ->).
  change (foldM (wstep detection shift_len) detect_stream (a :: addrs) h)
    with (match wstep detection shift_len detect_stream a h with
          | (h', Ok b') => foldM (wstep detection shift_len) b' addrs h'
          | (h', Raise e) => (h', Raise e)
          end).
  rewrite window_step_spec by (by eapply lookup_lt_Some).
  rewrite (list_lookup_total_correct _ _ _ Ha).
  destruct (wof detection shift_len tr) as [w|e] eqn:Hw; cbv beta iota.
  2:{ exists [tr]. simpl. rewrite Hw. split; [done|]. by intros ws. }
  destruct (IH traces' (detect_stream ++ window_addrs (length h) [w])
              (h ++ [default tr w])) as (new & Hfold & Hnew).
  { eapply Forall2_impl; [done|]. intros a' tr' Ha'.
    by apply lookup_app_l_Some. }
  exists (default tr w :: new). rewrite Hfold, <-(assoc_L (++)). simpl.
  rewrite Hw, length_app, Nat.add_1_r. simpl.
  destruct (mapM (wof detection shift_len) traces') as [ws|]; simpl.
  - split.
    + do 2 f_equal. rewrite <-(assoc_L (++)). f_equal. by destruct w.
    + intros ? [= <-]. simpl. f_equal. by apply Hnew.
  - split; [done|]. by intros ws.
Qed.

Lemma heap_bind_eq {A B} (f : A → heapM B) (m : heapM A) (h : list Trace) :
  (m ≫= f) h =
    match m h with
    | (h', Ok a) => f a h'
    | (h', Raise e) => (h', Raise e)
    end.
Proof. done. Qed.

Lemma heap_mapM_cons {A B} (f : A → heapM B) x l (h : list Trace) :
  mapM f (x :: l) h =
    match f x h with
    | (h1, Ok y) =>
        match mapM f l h1 with
        | (h2, Ok ys) => (h2, Ok (y :: ys))
        | (h2, Raise e) => (h2, Raise e)
        end
    | (h1, Raise e) => (h1, Raise e)
    end.
Proof.
  simpl. unfold mbind, heapM_bind. destruct (f x h) as [h1 [y|e]]; [|done].
  by destruct (mapM f l h1) as [h2 [ys|e]].
Qed.

Context (detect_data : list Trace).

Abbreviation dwindow :=
  (detection_window trim_value zipped_templates delays shift_len
     (seq 0 (length detect_data))).

Lemma prefix_lookup_seq (h : list Trace) :
  detect_data `prefix_of` h →
  Forall2 (λ a tr, h !! a = Some tr) (seq 0 (length detect_data)) detect_data.
Proof.
  intros [k ->]. apply Forall2_same_length_lookup_2.
  { by rewrite length_seq. }
  intros i a tr [-> Hi]%lookup_seq Htr. simpl. by apply lookup_app_l_Some.
Qed.

(** The pass of one detection over the continuous data. *)
Lemma detection_window_spec detection h :
  detect_data `prefix_of` h →
  ∃ new,
    dwindow detection h =
      (h ++ new,
       (λ ws, (template_name detection, window_addrs (length h) ws)) <$>
         mapM (wof detection shift_len) detect_data) ∧
    ∀ ws, mapM (wof detection shift_len) detect_data = Ok ws →
          new = window_objects detect_data ws.
Proof.
  intros Hpre%prefix_lookup_seq.
  destruct (window_fold_spec detection _ _ [] h Hpre) as (new & Hfold & Hnew).
  exists new. split; [|done].
  unfold detection_window. rewrite heap_bind_eq, Hfold.
  by destruct (mapM _ detect_data).
Qed.

Lemma window_objects_length detection traces ws :
  mapM (wof detection shift_len) traces = Ok ws →
  length (window_objects traces ws) = length traces.
Proof.
  intros Hws%mapM_result_length. unfold window_objects.
  by rewrite length_zip_with_l_eq.
Qed.

(** The passes of the detections, one after the other: the heap grows at
    its end, and the windows are those of [windows_from]. *)
Lemma windows_run detections h :
  detect_data `prefix_of` h →
  ∃ new,
    mapM dwindow detections h =
      (h ++ new,
       windows_from trim_value zipped_templates delays shift_len detect_data
         (length h) detections).
Proof.
  revert h. induction detections as [|detection rest IH]; intros h Hpre.
  { exists []. by rewrite (right_id_L [] (++)). }
  rewrite heap_mapM_cons.
  destruct (detection_window_spec detection h Hpre) as (new & -> & Hnew).
  simpl.
  destruct (mapM (wof detection shift_len) detect_data) as [ws|e] eqn:Hws;
    simpl; [|by exists new].
  rewrite (Hnew ws eq_refl).
  destruct (IH (h ++ window_objects detect_data ws)) as (new' & -> ).
  { by apply prefix_app_r. }
  exists (window_objects detect_data ws ++ new').
  rewrite length_app, (window_objects_length detection _ _ Hws).
  rewrite (assoc_L (++)). by destruct (windows_from _ _ _ _ _ _ rest).
Qed.

Lemma window_of_in_template detection tr w :
  wof detection shift_len tr = Ok w →
  in_template zipped_templates detection tr = bool_decide (is_Some w).
Proof.
  unfold window_of, in_template.
  destruct (filter _ zipped_templates) as [|template ?]; simpl; [done|].
  destruct (select _ _ _) as [|template0 ?] eqn:Hsel; simpl.
  { intros [= <-]. symmetry. apply bool_decide_eq_false_2. by intros [? [=]]. }
  destruct (py_div _ _) as [template_len|]; simpl; [|done].
  destruct (index0 (filter _ delays)) as [delay|]; simpl; [|done].
  destruct (index0 (filter _ delay.2)) as [d|]; simpl; [|done].
  destruct (trim_value _ _ _) as [window|]; simpl; [|done].
  intros [= <-]. symmetry. apply bool_decide_eq_true_2. eauto.
Qed.

(** The windows of a pass, in a heap that holds the objects of the pass:
    one for each trace that has a channel in the template, in the order
    of the traces. *)
Lemma pass_windows detection traces ws base bound (H pre post : list Trace) :
  mapM (wof detection shift_len) traces = Ok ws →
  H = pre ++ window_objects traces ws ++ post →
  length pre = base →
  (bound ≤ base)%nat →
  Forall2 (λ tr a,
             (bound ≤ a)%nat ∧
             ∃ w, wof detection shift_len tr = Ok (Some w) ∧ H !! a = Some w)
    (filter (in_template zipped_templates detection) traces)
    (window_addrs base ws).
Proof.
  revert ws base pre.
  induction traces as [|tr traces IH]; intros ws base pre Hws -> Hbase Hbound.
  { simpl in Hws. injection Hws as <-. constructor. }
  simpl in Hws.
  destruct (wof detection shift_len tr) as [w|] eqn:Hw; simpl in Hws; [|done].
  destruct (mapM _ traces) as [ws'|] eqn:Hws'; simpl in Hws; [|done].
  injection Hws as <-.
  assert (Hrest := IH ws' (S base) (pre ++ [default tr w]) eq_refl).
  rewrite <-!(assoc_L (++)), length_app, Nat.add_1_r in Hrest.
  specialize (Hrest eq_refl (f_equal S Hbase) ltac:(lia)).
  apply window_of_in_template in Hw as Hin. destruct w as [w|]; simpl.
  - rewrite filter_cons_True by (rewrite Hin; by apply bool_decide_pack).
    constructor; [|done]. split; [done|]. exists w. split; [done|].
    subst base. by apply list_lookup_middle.
  - rewrite filter_cons_False; [done|].
    rewrite Hin, bool_decide_eq_false_2; [by intros []|by intros [? [=]]].
Qed.

Lemma windows_content detections h H dss :
  detect_data `prefix_of` h →
  mapM dwindow detections h = (H, Ok dss) →
  h `prefix_of` H ∧
  StronglySorted lt (concat dss.*2) ∧
  Forall (λ a, (length h ≤ a < length H)%nat) (concat dss.*2) ∧
  Forall2 (λ detection ds,
    ds.1 = template_name detection ∧
    Forall2 (λ tr a,
               (length detect_data ≤ a)%nat ∧
               ∃ w, wof detection shift_len tr = Ok (Some w) ∧
                    H !! a = Some w)
      (filter (in_template zipped_templates detection) detect_data) ds.2)
    detections dss.
Proof.
  revert h dss. induction detections as [|detection rest IH];
    intros h dss Hpre Hrun.
  { injection Hrun as <- <-. split_and!; [done|constructor..]. }
  rewrite heap_mapM_cons in Hrun.
  destruct (detection_window_spec detection h Hpre) as (new & Hd & Hnew).
  rewrite Hd in Hrun.
  destruct (mapM (wof detection shift_len) detect_data) as [ws|] eqn:Hws;
    simpl in Hrun; [|done].
  rewrite (Hnew ws eq_refl) in Hrun.
  destruct (mapM dwindow rest (h ++ window_objects detect_data ws))
    as [H' [dss'|]] eqn:Hrest; [|done].
  injection Hrun as <- <-.
  apply IH in Hrest as ([post ->] & Hsorted & Hrange & Hall);
    [|by apply prefix_app_r].
  assert (Hlen := window_objects_length detection _ _ Hws).
  assert (Hlen' := mapM_result_length _ _ _ Hws).
  rewrite !length_app, Hlen in Hrange. rewrite !length_app, Hlen. simpl.
  split_and!.
  - rewrite <-(assoc_L (++)). by apply prefix_app_r.
  - apply StronglySorted_app_2; [|apply window_addrs_sorted|done].
    intros a1 a2 Ha1%window_addrs_bounds Ha2.
    pose proof (proj1 (Forall_forall _ _) Hrange a2 Ha2) as Hr.
    simpl in Hr. lia.
  - apply Forall_app_2.
    + apply Forall_forall. intros a Ha%window_addrs_bounds. lia.
    + eapply Forall_impl; [done|]. simpl. lia.
  - constructor; [|done]. split; [done|]. simpl.
    eapply (pass_windows detection detect_data ws (length h)); try done.
    + by rewrite <-(assoc_L (++)).
    + by apply prefix_length.
Qed.
End window_facts.

(** ** The overseer *)

Lemma zipped_sorted (template_names : list string) (templates : list Stream) :
  (λ template : string * Stream, (template.1, Stream_sort template.2))
    <$> zip template_names templates
  = zip template_names (Stream_sort <$> templates).
Proof.
  revert templates. induction template_names as [|name names IH];
    intros [|template templates]; simpl; [done..|]. by rewrite IH.
Qed.

Lemma StronglySorted_lt_NoDup (l : list nat) : StronglySorted lt l → NoDup l.
Proof.
  induction 1 as [|x l Hl IH Hx]; constructor; [|done].
  intros Hin. pose proof (proj1 (Forall_forall _ _) Hx x Hin). lia.
Qed.

Section lag_calc_facts.
Context (normxcorr2 : list Qc → list Qc → list Qc) (cpu_count : positive).
Context (trim_value : Trace → Qc → Qc → result Trace).

Abbreviation run := (lag_calc normxcorr2 cpu_count trim_value).

(** [lag_calc], phase by phase. *)
Lemma lag_calc_phases scheds detections detect_data template_names
    (templates : list Stream) shift_len min_cc :
  let zipped := zip template_names (Stream_sort <$> templates) in
  let windows :=
    mapM (detection_window trim_value zipped
            (delay_table template_names templates) shift_len
            (seq 0 (length detect_data))) detections detect_data in
  heap_after (run scheds detections detect_data template_names templates
                shift_len min_cc) = windows.1 ∧
  returned (run scheds detections detect_data template_names templates
              shift_len min_cc) =
    windows.2 ≫= λ detect_streams,
      (λ groups, concat groups) <$> catalog_in_order normxcorr2 zipped
                   (load_streams windows.1 detect_streams) min_cc.
Proof.
  intros zipped windows. subst zipped windows. unfold lag_calc.
  rewrite delay_loop_spec, zipped_sorted. unfold delay_table.
  destruct (mapM (M:=heapM) _ detections detect_data)
    as [heap [detect_streams|e]]; simpl; [|done].
  split; [done|]. rewrite template_loop_in_order.
  by destruct (catalog_in_order _ _ _ _).
Qed.

Lemma window_of_Some_inv zipped delays detection shift_len tr w :
  window_of trim_value zipped delays detection shift_len tr = Ok (Some w) →
  ∃ template template0 entries d,
    head (filter (λ t, t.1 = template_name detection) zipped) = Some template ∧
    head (select template.2 (station tr) (channel tr)) = Some template0 ∧
    sampling_rate template0 ≠ 0 ∧
    head (filter (λ e, e.1 = template_name detection) delays) = Some entries ∧
    head (filter (λ d : delay_entry,
                    d.1.1 = station tr ∧ d.1.2 = channel tr) entries.2)
      = Some d ∧
    trim_value tr
      (detect_time detection - shift_len + d.2)
      (detect_time detection + d.2 + shift_len +
       Qc_of_Z (Z.of_nat (length (data template0))) / sampling_rate template0)
      = Ok w.
Proof.
  unfold window_of.
  destruct (filter _ zipped) as [|template ?]; simpl; [done|].
  destruct (select _ _ _) as [|template0 ?] eqn:Hsel; simpl; [done|].
  unfold py_div. case_bool_decide as Hrate; simpl; [done|].
  destruct (filter _ delays) as [|entries ?]; simpl; [done|].
  destruct (filter _ entries.2) as [|d ?] eqn:Hd; simpl; [done|].
  destruct (trim_value _ _ _) as [window|] eqn:Htrim; simpl; [|done].
  intros [= <-]. exists template, template0, entries, d.
  rewrite Hsel, Hd. by split_and!.
Qed.

Lemma load_streams_names heap (detect_streams : list (string * list nat)) :
  (load_streams heap detect_streams).*1 = detect_streams.*1.
Proof.
  induction detect_streams as [|ds dss IH]; [done|].
  simpl. f_equal. apply IH.
Qed.

Lemma window_names {B} (P : DETECTION → string * B → Prop) detections dss :
  (∀ d ds, P d ds → ds.1 = template_name d) →
  Forall2 P detections dss →
  dss.*1 = template_name <$> detections.
Proof.
  intros HP. induction 1 as [|d ds ? ? Hname _ IH]; [done|].
  simpl. f_equal; [by apply HP|apply IH].
Qed.

(** C2. The catalog does not depend on the order in which the workers
    complete; it is made of one group of events for each template, in the
    order of the templates, and the group of a template holds the events
    of the detections of that template in the order of the detections.
    The k-th of [detect_streams] has the name of the k-th detection and
    holds the windows of that detection, one for each trace of the
    continuous data the template has a channel for, in the order of the
    traces; the events of a group are those of the channel loop on the
    streams with the name of the template, one after the other. *)
Theorem lag_calc_catalog_order scheds detections detect_data template_names
    (templates : list Stream) shift_len min_cc :
  (∀ scheds',
     run scheds' detections detect_data template_names templates shift_len
       min_cc =
     run scheds detections detect_data template_names templates shift_len
       min_cc) ∧
  ∀ events,
    returned (run scheds detections detect_data template_names templates
                shift_len min_cc) = Ok events →
    ∃ (detect_streams : list (string * Stream)) (groups : list (list Event)),
      Forall2 (λ (detection : DETECTION) (detect : string * Stream),
        detect.1 = template_name detection ∧
        Forall2 (λ (tr window : Trace),
                   window_of trim_value
                     (zip template_names (Stream_sort <$> templates))
                     (delay_table template_names templates)
                     detection shift_len tr = Ok (Some window))
          (filter (in_template
                     (zip template_names (Stream_sort <$> templates))
                     detection) detect_data)
          detect.2)
        detections detect_streams ∧
      Forall2 (λ (template : string * Stream) (group : list Event),
        Forall2 (λ (detect : string * Stream) (ev : Event),
                   event_of normxcorr2 template.2 min_cc detect.2 = Ok ev)
          (filter (λ detect, detect.1 = template.1) detect_streams) group)
        (zip template_names (Stream_sort <$> templates)) groups ∧
      events = concat groups.
Proof.
  split.
  { intros scheds'. unfold lag_calc. rewrite delay_loop_spec.
    destruct (mapM (M:=heapM) _ detections detect_data)
      as [heap [detect_streams|e]]; [|done].
    by rewrite !template_loop_in_order. }
  intros events.
  destruct (lag_calc_phases scheds detections detect_data template_names
              templates shift_len min_cc) as [_ ->].
  destruct (mapM (M:=heapM) _ detections detect_data)
    as [heap [dss|e]] eqn:Hrun; simpl; [|done].
  destruct (catalog_in_order _ _ _ _) as [groups|] eqn:Hgroups; simpl;
    [|done].
  intros [= <-]. exists (load_streams heap dss), groups. split_and!; [| |done].
  - apply windows_content in Hrun as (_ & _ & _ & Hall); [|done].
    unfold load_streams. apply Forall2_fmap_r.
    eapply Forall2_impl; [exact Hall|]. intros d ds [Hname Hws]. simpl.
    split; [done|]. apply Forall2_fmap_r.
    eapply Forall2_impl; [exact Hws|]. intros tr a (_ & w & Hw & Ha). simpl.
    by rewrite (list_lookup_total_correct _ _ _ Ha).
  - apply mapM_result_Forall2 in Hgroups.
    eapply Forall2_impl; [done|]. intros template group Hgroup. simpl in *.
    apply mapM_result_Forall2 in Hgroup. by apply Forall2_fmap_l in Hgroup.
Qed.

(** C6. The window of a detection for a trace of the continuous data whose
    station and channel the template of the detection has is a new trace
    object, a copy of the trace trimmed to the interval from
    [detect_time - shift_len + delay] to
    [detect_time + delay + shift_len + template_len], where [template_len]
    is the number of samples of the template channel over its sampling
    rate and [delay] the offset the delay table has for the channel; the
    traces of the continuous data are left as they were, no window is one
    of them, no two windows are the same object, and the traces the
    template has no channel for get no window. *)
Theorem windows_are_trimmed_copies scheds detections detect_data
    template_names (templates : list Stream) shift_len min_cc zipped delays
    heap detect_streams :
  delay_loop (zip template_names templates) = (zipped, Ok delays) →
  mapM (detection_window trim_value zipped delays shift_len
          (seq 0 (length detect_data))) detections detect_data
    = (heap, Ok detect_streams) →
  heap_after (run scheds detections detect_data template_names templates
                shift_len min_cc) = heap ∧
  take (length detect_data) heap = detect_data ∧
  NoDup (concat detect_streams.*2) ∧
  Forall2 (λ (detection : DETECTION) (detect : string * list nat),
    detect.1 = template_name detection ∧
    Forall2 (λ (tr : Trace) (window : nat),
      (length detect_data ≤ window)%nat ∧
      ∃ template template0 entries d w,
        head (filter (λ t, t.1 = template_name detection) zipped)
          = Some template ∧
        head (select template.2 (station tr) (channel tr)) = Some template0 ∧
        head (filter (λ e, e.1 = template_name detection) delays)
          = Some entries ∧
        head (filter (λ d : delay_entry,
                        d.1.1 = station tr ∧ d.1.2 = channel tr) entries.2)
          = Some d ∧
        trim_value tr
          (detect_time detection - shift_len + d.2)
          (detect_time detection + d.2 + shift_len +
           Qc_of_Z (Z.of_nat (length (data template0))) /
           sampling_rate template0) = Ok w ∧
        heap !! window = Some w)
      (filter (in_template zipped detection) detect_data) detect.2)
    detections detect_streams.
Proof.
  intros Hdelays Hrun. split_and!.
  - unfold lag_calc. rewrite Hdelays. by rewrite Hrun.
  - apply windows_content in Hrun as ([post ->] & _); [|done].
    by rewrite take_app_length.
  - apply windows_content in Hrun as (_ & Hsorted & _); [|done].
    by apply StronglySorted_lt_NoDup.
  - apply windows_content in Hrun as (_ & _ & _ & Hall); [|done].
    eapply Forall2_impl; [done|]. intros detection detect [Hname Hws].
    split; [done|]. eapply Forall2_impl; [done|].
    intros tr window (Hnew & w & Hw & Hheap). split; [done|].
    apply window_of_Some_inv in Hw
      as (template & template0 & entries & d & ? & ? & ? & ? & ? & ?).
    by exists template, template0, entries, d, w.
Qed.
End lag_calc_facts.

(** ** Configurations and names [lag_calc] does not check *)

Section unchecked_inputs.
Context (normxcorr2 : list Qc → list Qc → list Qc) (cpu_count : positive).
Context (trim_value : Trace → Qc → Qc → result Trace).

Abbreviation detection_of name :=
  (λ t : Qc, {| template_name := name; detect_time := t |}).

Lemma window_of_empty_template delays name t shift_len tr :
  window_of trim_value [(name, [])] delays (detection_of name t) shift_len tr
    = Ok None.
Proof.
  unfold window_of. simpl. by rewrite filter_cons_True by done.
Qed.

Lemma windows_of_empty_template delays name t shift_len traces :
  mapM (window_of trim_value [(name, [])] delays (detection_of name t)
          shift_len) traces
    = Ok (replicate (length traces) None).
Proof.
  induction traces as [|tr traces IH]; [done|].
  simpl. by rewrite window_of_empty_template, IH.
Qed.

Lemma window_addrs_no_window base n :
  window_addrs base (replicate n None) = [].
Proof. revert base. induction n as [|n IH]; intros base; simpl; [done|apply IH]. Qed.

Lemma windows_from_empty_template delays name shift_len detect_data base times :
  windows_from trim_value [(name, [])] delays shift_len detect_data base
    (detection_of name <$> times)
    = Ok ((λ _, (name, [])) <$> times).
Proof.
  revert base. induction times as [|t times IH]; intros base; [done|].
  simpl. rewrite windows_of_empty_template, IH. simpl.
  by rewrite window_addrs_no_window.
Qed.

Lemma mapM_result_cons {A B} (f : A → result B) x l :
  mapM f (x :: l) = y ← f x; ys ← mapM f l; Ok (y :: ys).
Proof. done. Qed.

Lemma load_streams_empty heap (name : string) (times : list Qc) :
  load_streams heap ((λ _, (name, [])) <$> times)
    = replicate (length times) (name, []).
Proof.
  induction times as [|t times IH]; [done|]. simpl. f_equal. apply IH.
Qed.

Lemma events_of_empty_template (name : string) min_cc n :
  mapM (event_of normxcorr2 [] min_cc)
    (filter (λ detect : string * Stream, detect.1 = name)
       (replicate n (name, []))).*2
    = Ok (replicate n {| picks := [] |}).
Proof.
  induction n as [|n IH]; [done|].
  rewrite replicate_S, filter_cons_True by done.
  by rewrite fmap_cons, mapM_result_cons, IH.
Qed.

Lemma catalog_of_empty_template name min_cc (times : list Qc) heap :
  catalog_in_order normxcorr2 [(name, [])]
    (load_streams heap ((λ _, (name, [])) <$> times)) min_cc
    = Ok [replicate (length times) {| picks := [] |}].
Proof.
  unfold catalog_in_order.
  change (mapM ?f [?x]) with (y ← f x; ys ← Ok []; Ok (y :: ys)).
  cbv beta. change ((name, []).2) with ([] : Stream).
  change ((name, []).1) with name.
  by rewrite load_streams_empty, events_of_empty_template.
Qed.

(** C4. [lag_calc] checks neither the templates nor [shift_len] nor
    [min_cc]: with a template that has no channel, and whatever the values
    of [shift_len] and [min_cc], it raises nothing and returns one event
    without picks for each detection of that template. *)
Theorem zero_channel_template_is_accepted scheds (name : string)
    (times : list Qc) detect_data shift_len min_cc :
  returned (lag_calc normxcorr2 cpu_count trim_value scheds
              (detection_of name <$> times) detect_data [name] [[]]
              shift_len min_cc)
    = Ok (replicate (length times) {| picks := [] |}).
Proof.
  destruct (lag_calc_phases normxcorr2 cpu_count trim_value scheds
              (detection_of name <$> times) detect_data [name] [[]]
              shift_len min_cc) as [_ ->].
  destruct (windows_run trim_value (zip [name] (Stream_sort <$> [[]]))
              (delay_table [name] [[]]) shift_len detect_data
              (detection_of name <$> times) detect_data) as (new & ->);
    [done|].
  change (zip [name] (Stream_sort <$> [[]])) with [(name, [] : Stream)].
  cbn [fst snd]. rewrite windows_from_empty_template.
  change (Ok ?x ≫= ?f) with (f x). cbv beta.
  rewrite catalog_of_empty_template. simpl.
  by rewrite (right_id_L [] (++)).
Qed.

Lemma window_of_unknown zipped delays detection shift_len tr :
  template_name detection ∉ zipped.*1 →
  window_of trim_value zipped delays detection shift_len tr = Raise IndexError.
Proof.
  intros Hname. unfold window_of.
  rewrite (filter_none
    (λ t : string * Stream, t.1 = template_name detection) zipped); [done|].
  intros t Ht Heq. apply Hname. rewrite <-Heq. by apply list_elem_of_fmap_2.
Qed.

Lemma windows_from_unknown zipped delays shift_len detect_data base
    detections detection :
  detect_data ≠ [] →
  detection ∈ detections →
  template_name detection ∉ zipped.*1 →
  ∃ e, windows_from trim_value zipped delays shift_len detect_data base
         detections = Raise e.
Proof.
  intros Hdata Hin Hname. revert base.
  induction detections as [|d rest IH]; intros base.
  { by apply elem_of_nil in Hin. }
  simpl. apply elem_of_cons in Hin as [<-|Hin].
  - destruct detect_data as [|tr traces]; [done|]. simpl.
    rewrite window_of_unknown by done. by exists IndexError.
  - destruct (mapM _ detect_data) as [ws|e]; simpl; [|by exists e].
    destruct (IH Hin (base + length detect_data)%nat) as [e ->].
    by exists e.
Qed.

Lemma windows_from_first_unknown zipped delays shift_len detect_data base
    pre detection post dss :
  detect_data ≠ [] →
  template_name detection ∉ zipped.*1 →
  windows_from trim_value zipped delays shift_len detect_data base pre
    = Ok dss →
  windows_from trim_value zipped delays shift_len detect_data base
    (pre ++ detection :: post) = Raise IndexError.
Proof.
  intros Hdata Hname. revert base dss.
  induction pre as [|d pre IH]; intros base dss.
  - intros _. destruct detect_data as [|tr traces]; [done|]. simpl.
    by rewrite window_of_unknown by done.
  - simpl. destruct (mapM _ detect_data) as [ws|e]; simpl; [|done].
    destruct (windows_from _ _ _ _ _ _ pre) as [dss'|] eqn:Hpre; simpl;
      [|done].
    intros _. by rewrite (IH _ _ Hpre).
Qed.

Lemma zipped_names (template_names : list string) (templates : list Stream) :
  (zip template_names (Stream_sort <$> templates)).*1
  = (zip template_names templates).*1.
Proof.
  revert templates. induction template_names as [|name names IH];
    intros [|template templates]; simpl; [done..|]. by rewrite IH.
Qed.

(** C9. With at least one trace in the continuous data, a detection that
    names a template that is not in the collection ends the call: an
    exception is raised and no catalog is returned, and the exception is
    [IndexError], a [LookupError], when the windows of the detections
    before it were cut without an exception.  So does, with
    [IndexError], a trace whose station and channel the template of the
    detection has and the delay table of that template has not. *)
Theorem unknown_template_or_delay_is_fatal scheds detections detect_data
    template_names (templates : list Stream) shift_len min_cc :
  (∀ detection,
     detect_data ≠ [] →
     detection ∈ detections →
     template_name detection ∉ (zip template_names templates).*1 →
     ∃ e,
       returned (lag_calc normxcorr2 cpu_count trim_value scheds detections
                   detect_data template_names templates shift_len min_cc)
         = Raise e ∧
       ∀ zipped delays pre post dss,
         delay_loop (zip template_names templates) = (zipped, Ok delays) →
         detections = pre ++ detection :: post →
         (mapM (detection_window trim_value zipped delays shift_len
                  (seq 0 (length detect_data))) pre detect_data).2
           = Ok dss →
         e = IndexError ∧ is_LookupError e = true) ∧
  (∀ zipped delays detection detect_stream tr (heap : list Trace)
     template template0,
     (tr < length heap)%nat →
     head (filter (λ t, t.1 = template_name detection) zipped)
       = Some template →
     head (select template.2 (station (heap !!! tr))
             (channel (heap !!! tr))) = Some template0 →
     sampling_rate template0 ≠ 0 →
     (∀ entries,
        head (filter (λ e, e.1 = template_name detection) delays)
          = Some entries →
        filter (λ d : delay_entry,
                  d.1.1 = station (heap !!! tr) ∧
                  d.1.2 = channel (heap !!! tr)) entries.2 = []) →
     (window_step trim_value zipped delays detection shift_len
        detect_stream tr heap).2 = Raise IndexError).
Proof.
  split.
  - intros detection Hdata Hin Hname. rewrite <-zipped_names in Hname.
    destruct (lag_calc_phases normxcorr2 cpu_count trim_value scheds
                detections detect_data template_names templates shift_len
                min_cc) as [_ ->].
    destruct (windows_run trim_value
                (zip template_names (Stream_sort <$> templates))
                (delay_table template_names templates) shift_len
                detect_data detections detect_data) as (new & ->); [done|].
    cbn [fst snd].
    destruct (windows_from_unknown
                (zip template_names (Stream_sort <$> templates))
                (delay_table template_names templates) shift_len
                detect_data (length detect_data) detections detection
                Hdata Hin Hname) as [e He].
    exists e. split; [by rewrite He|].
    intros zipped delays pre post dss Hdelays -> Hpre.
    rewrite delay_loop_spec, zipped_sorted in Hdelays.
    injection Hdelays as <- <-.
    destruct (windows_run trim_value
                (zip template_names (Stream_sort <$> templates))
                (delay_table template_names templates) shift_len
                detect_data pre detect_data) as (new' & Hrun); [done|].
    unfold delay_table in Hrun. rewrite Hrun in Hpre. cbn [snd] in Hpre.
    erewrite windows_from_first_unknown in He; [|done..].
    by injection He as <-.
  - intros zipped delays detection detect_stream tr heap template template0
      Htr Htemplate Hsel Hrate Hentries.
    rewrite window_step_spec by done.
    assert (window_of trim_value zipped delays detection shift_len
              (heap !!! tr) = Raise IndexError) as ->; [|done].
    unfold window_of.
    destruct (filter _ zipped) as [|template' ?]; [done|].
    injection Htemplate as ->. simpl.
    destruct (select _ _ _) as [|template0' ?]; [done|].
    injection Hsel as ->. simpl.
    unfold py_div. rewrite bool_decide_eq_false_2 by done. simpl.
    destruct (filter _ delays) as [|entries ?] eqn:Hd; [done|]. simpl.
    by rewrite (Hentries entries eq_refl).
Qed.
End unchecked_inputs.

(** ** Examples *)

(** With a window whose peak is the threshold itself the event has no
    pick. *)
Example no_pick_at_the_threshold :
  _channel_loop Fixtures.xcorr Fixtures.windows_at_threshold Fixtures.template
    Fixtures.min_cc 0 = Ok (0%nat, {| picks := [] |}).
Proof. by vm_compute. Qed.

Lemma picks_above_min_cc_witness :
  _channel_loop Fixtures.xcorr Fixtures.windows Fixtures.template
    Fixtures.min_cc 0
    = Ok (0%nat, Fixtures.event Fixtures.windows Fixtures.template) ∧
  length (picks (Fixtures.event Fixtures.windows Fixtures.template)) =
    length (filter (above_threshold Fixtures.xcorr Fixtures.windows
                      Fixtures.min_cc) Fixtures.template).
Proof.
  split; [vm_compute; reflexivity|].
  apply (picks_above_min_cc Fixtures.xcorr Fixtures.windows Fixtures.template
           Fixtures.min_cc 0 0).
  vm_compute; reflexivity.
Defined.

Lemma pick_time_and_phase_witness :
  Fixtures.first_pick (Fixtures.event Fixtures.windows Fixtures.template)
    ∈ picks (Fixtures.event Fixtures.windows Fixtures.template) ∧
  phase_hint
    (Fixtures.first_pick (Fixtures.event Fixtures.windows Fixtures.template))
    = Some "S".
Proof.
  assert (Hin : Fixtures.first_pick
                  (Fixtures.event Fixtures.windows Fixtures.template)
                ∈ picks (Fixtures.event Fixtures.windows Fixtures.template)).
  { apply (list_elem_of_lookup_2 _ 0). vm_compute; reflexivity. }
  split; [exact Hin|].
  destruct (pick_time_and_phase Fixtures.xcorr Fixtures.windows
              Fixtures.template Fixtures.min_cc 0 0
              (Fixtures.event Fixtures.windows Fixtures.template)
              (Fixtures.first_pick
                 (Fixtures.event Fixtures.windows Fixtures.template)))
    as (tr & image0 & k & _ & _ & _ & _ & _ & _ & _ & HS & _).
  - vm_compute; reflexivity.
  - exact Hin.
  - apply HS. right. vm_compute; reflexivity.
Defined.

Lemma lag_calc_sorts_templates_witness :
  ∃ template',
    templates_after
      (lag_calc Fixtures.xcorr 2 Fixtures.trim (λ _, Fixtures.lifo)
         Fixtures.detections Fixtures.windows Fixtures.template_names
         Fixtures.templates Fixtures.shift_len Fixtures.min_cc) !! 0%nat
      = Some template' ∧
    template' = Stream_sort Fixtures.template ∧
    template' ≡ₚ Fixtures.template ∧
    Sorted (λ tr1 tr2, starttime tr1 ≤ starttime tr2) template'.
Proof.
  apply (lag_calc_sorts_templates Fixtures.xcorr 2 Fixtures.trim
           (λ _, Fixtures.lifo) Fixtures.detections Fixtures.windows
           Fixtures.template_names Fixtures.templates Fixtures.shift_len
           Fixtures.min_cc 0 "A" Fixtures.template); reflexivity.
Defined.

Lemma windows_are_trimmed_copies_witness :
  take (length Fixtures.windows) Fixtures.heap = Fixtures.windows ∧
  NoDup (concat (Fixtures.detect_streams.*2)) ∧
  (Fixtures.detect_streams.*2) = [[4; 5; 6]; [9; 10]; [12; 13; 14]]%nat.
Proof.
  destruct (windows_are_trimmed_copies Fixtures.xcorr 2 Fixtures.trim
              (λ _, Fixtures.lifo) Fixtures.detections Fixtures.windows
              Fixtures.template_names Fixtures.templates Fixtures.shift_len
              Fixtures.min_cc Fixtures.zipped_templates Fixtures.delays
              Fixtures.heap Fixtures.detect_streams)
    as (_ & Hsource & Hfresh & _).
  - vm_compute; reflexivity.
  - vm_compute; reflexivity.
  - split; [exact Hsource|]. split; [exact Hfresh|]. vm_compute; reflexivity.
Defined.

(** C4. A template without channels, a negative [shift_len] and a [min_cc]
    of 2: [lag_calc] raises nothing and returns an event for the
    detection. *)
Lemma lag_calc_accepts_unchecked_configuration :
  Fixtures.q (-1) 1 < 0 ∧
  ¬ Fixtures.q 2 1 < 1 ∧
  returned
    (lag_calc Fixtures.xcorr 2 Fixtures.trim (λ _, Fixtures.fifo)
       [ {| template_name := "A"; detect_time := Fixtures.q 10 1 |} ]
       Fixtures.windows ["A"] [[]] (Fixtures.q (-1) 1) (Fixtures.q 2 1))
    = Ok [ {| picks := [] |} ].
Proof.
  split; [by vm_compute|]. split; [|by vm_compute].
  apply Qcle_not_lt. by vm_compute.
Qed.

(** C9. No trace in the continuous data and a detection of a template that
    is not in the collection: [lag_calc] raises nothing and returns an
    empty catalog. *)
Lemma unknown_template_without_data_is_dropped :
  ("X" ∉ (zip ["A"] [Fixtures.template]).*1) ∧
  returned
    (lag_calc Fixtures.xcorr 2 Fixtures.trim (λ _, Fixtures.fifo)
       [ {| template_name := "X"; detect_time := Fixtures.q 10 1 |} ]
       [] ["A"] [Fixtures.template] Fixtures.shift_len Fixtures.min_cc)
    = Ok [].
Proof.
  split; [|by vm_compute].
  simpl. by intros [=]%list_elem_of_singleton.
Qed.

(** The three detections of the examples, with the workers completing last
    task first: the catalog has the events of the two detections of the
    first template, then the event of the detection of the second. *)
Lemma Forall2_Ok_Some_mapM {A B} (f : A → result (option B)) l k :
  Forall2 (λ x y, f x = Ok (Some y)) l k →
  mapM (λ x, match f x with Ok o => o | Raise _ => None end) l = Some k.
Proof.
  intros Hall. apply mapM_Some. eapply Forall2_impl; [exact Hall|].
  intros x y Hx. simpl. by rewrite Hx.
Qed.

Lemma lag_calc_catalog_order_witness :
  returned
    (lag_calc Fixtures.xcorr 2 Fixtures.trim (λ _, Fixtures.lifo)
       Fixtures.detections Fixtures.windows Fixtures.template_names
       Fixtures.templates Fixtures.shift_len Fixtures.min_cc)
    = Ok [ Fixtures.event (Fixtures.window_stream 0)
             (Stream_sort Fixtures.template);
           Fixtures.event (Fixtures.window_stream 2)
             (Stream_sort Fixtures.template);
           Fixtures.event (Fixtures.window_stream 1)
             (Stream_sort Fixtures.template3) ].
Proof.
  destruct (lag_calc_catalog_order Fixtures.xcorr 2 Fixtures.trim
              (λ _, Fixtures.lifo) Fixtures.detections Fixtures.windows
              Fixtures.template_names Fixtures.templates Fixtures.shift_len
              Fixtures.min_cc) as [_ Horder].
  destruct (Horder Fixtures.catalog)
    as (detect_streams & groups & Hstreams & Hgroups & Hevents).
  { vm_compute; reflexivity. }
  transitivity (Ok (A:=Catalog) Fixtures.catalog); [vm_compute; reflexivity|].
  rewrite Hevents. apply (f_equal Ok). clear Hevents Horder.
  unfold Fixtures.detections in Hstreams.
  apply Forall2_cons_inv_l in Hstreams
    as ([n1 s1] & dss1 & [Hn1 Hw1] & Hstreams & ->).
  apply Forall2_cons_inv_l in Hstreams
    as ([n2 s2] & dss2 & [Hn2 Hw2] & Hstreams & ->).
  apply Forall2_cons_inv_l in Hstreams
    as ([n3 s3] & dss3 & [Hn3 Hw3] & Hstreams & ->).
  apply Forall2_nil_inv_l in Hstreams as ->.
  simpl in Hn1, Hn2, Hn3. subst n1 n2 n3.
  apply Forall2_Ok_Some_mapM in Hw1, Hw2, Hw3.
  vm_compute in Hw1, Hw2, Hw3.
  injection Hw1 as <-. injection Hw2 as <-. injection Hw3 as <-.
  change (zip Fixtures.template_names (Stream_sort <$> Fixtures.templates))
    with [("A", Stream_sort Fixtures.template);
          ("B", Stream_sort Fixtures.template3)] in Hgroups.
  apply Forall2_cons_inv_l in Hgroups as (g1 & groups1 & Hg1 & Hgroups & ->).
  apply Forall2_cons_inv_l in Hgroups as (g2 & groups2 & Hg2 & Hgroups & ->).
  apply Forall2_nil_inv_l in Hgroups as ->.
  apply mapM_result_Forall2 in Hg1, Hg2.
  vm_compute in Hg1, Hg2.
  injection Hg1 as <-. injection Hg2 as <-.
  vm_compute; reflexivity.
Defined.

(** A detection of a template that is not in the collection, with traces
    in the continuous data: [lag_calc] raises [IndexError]. *)
Lemma unknown_template_or_delay_is_fatal_witness :
  returned
    (lag_calc Fixtures.xcorr 2 Fixtures.trim (λ _, Fixtures.fifo)
       [ {| template_name := "X"; detect_time := Fixtures.q 10 1 |} ]
       Fixtures.windows ["A"] [Fixtures.template] Fixtures.shift_len
       Fixtures.min_cc)
    = Raise IndexError.
Proof.
  destruct (unknown_template_or_delay_is_fatal Fixtures.xcorr 2 Fixtures.trim
              (λ _, Fixtures.fifo)
              [ {| template_name := "X"; detect_time := Fixtures.q 10 1 |} ]
              Fixtures.windows ["A"] [Fixtures.template] Fixtures.shift_len
              Fixtures.min_cc) as [Hunknown _].
  destruct (Hunknown {| template_name := "X"; detect_time := Fixtures.q 10 1 |})
    as (e & Hraise & Hindex).
  - discriminate.
  - left.
  - simpl. intros [=]%list_elem_of_singleton.
  - destruct (Hindex (delay_loop (zip ["A"] [Fixtures.template])).1
                Fixtures.delays_A [] [] []) as [-> _].
    + vm_compute; reflexivity.
    + reflexivity.
    + reflexivity.
    + exact Hraise.
Defined.

(** * More on the channel loop *)

Lemma head_app_Some {A} (l1 l2 : list A) x :
  head l1 = Some x → head (l1 ++ l2) = Some x.
Proof. by destruct l1. Qed.

Lemma head_app_None {A} (l1 l2 : list A) :
  head l1 = None → head (l1 ++ l2) = head l2.
Proof. by destruct l1. Qed.

Section channel_loop_extras.
Context (normxcorr2 : list Qc → list Qc → list Qc).
Context (detection : Stream) (min_cc : Qc).

Abbreviation cstep := (channel_step normxcorr2 detection min_cc).
Abbreviation cand := (candidate normxcorr2 detection min_cc).
Abbreviation firstS := (first_S normxcorr2 detection min_cc).

Lemma is_S_not_Z chan : last_slice chan = "Z" → is_S chan = false.
Proof.
  intros HZ. unfold is_S. rewrite HZ. apply bool_decide_eq_false_2.
  intros [[=]|[[=]|[]%elem_of_nil]%elem_of_cons]%elem_of_cons.
Qed.

Lemma first_S_snoc done tr sta :
  firstS (done ++ [tr]) sta =
    match firstS done sta with
    | Some best => Some best
    | None => if is_S (channel tr) && bool_decide (station tr = sta)
              then cand tr else None
    end.
Proof.
  unfold first_S. rewrite omap_app.
  destruct (head (omap _ done)) as [best|] eqn:Hhead.
  - by apply head_app_Some.
  - rewrite head_app_None by done. simpl. by destruct (_ && _), (cand tr).
Qed.

(** An iteration, for a state that holds for each station the entry of its
    first horizontal channel above the threshold and an empty
    [used_s_sta]. *)
Lemma channel_step_exact done st tr st' :
  (∀ sta, s_stachans st !! sta = firstS done sta) →
  used_s_sta st = [] →
  cstep st tr = Ok st' →
  (∀ sta, s_stachans st' !! sta = firstS (done ++ [tr]) sta) ∧
  used_s_sta st' = [] ∧
  ev_picks st' = ev_picks st ++
    match cand tr with
    | Some own => [pick_of (firstS done (station tr)) tr own]
    | None => []
    end.
Proof.
  intros Hbest Hused. unfold channel_step, candidate.
  assert (Hkeep : (∀ sta, (if is_S (channel tr) && bool_decide (station tr = sta)
                           then cand tr else None) = None) →
                  ∀ sta, s_stachans st !! sta = firstS (done ++ [tr]) sta).
  { intros Hnone sta. rewrite first_S_snoc, Hnone, Hbest.
    by destruct (firstS done sta). }
  destruct (select detection (station tr) (channel tr))
    as [|image0 rest] eqn:Himage; simpl.
  { intros [= <-]. rewrite (right_id_L [] (++)). split_and!; [|done..].
    apply Hkeep. intros sta. unfold candidate. rewrite Himage. simpl.
    by destruct (_ && _). }
  unfold np_amax.
  destruct (amax (normxcorr2 (data tr) (data image0))) as [peak|] eqn:Hpeak;
    [|done].
  simpl. case_bool_decide as Hcc.
  2:{ intros [= <-]. rewrite (right_id_L [] (++)). split_and!; [|done..].
      apply Hkeep. intros sta. unfold candidate. rewrite Himage. simpl.
      rewrite Hpeak. simpl.
      rewrite (bool_decide_eq_false_2 (min_cc < peak)) by done.
      by destruct (_ && _). }
  assert (Hcand : cand tr =
            Some (channel tr, peak, picktime_of normxcorr2 tr image0)).
  { unfold candidate. rewrite Himage. simpl. rewrite Hpeak. simpl.
    by rewrite bool_decide_eq_true_2. }
  fold (picktime_of normxcorr2 tr image0).
  case_bool_decide as HZ.
  { intros [= <-]. simpl. split_and!; [|done|].
    - apply Hkeep. intros sta. by rewrite (is_S_not_Z _ HZ).
    - unfold pick_of, phase_of. rewrite (is_S_not_Z _ HZ).
      rewrite (bool_decide_eq_true_2 (last_slice (channel tr) = "Z")) by done.
      simpl. by destruct (firstS done (station tr)). }
  case_bool_decide as HEN.
  - assert (HS : is_S (channel tr) = true) by by apply bool_decide_eq_true_2.
    assert (Hphase : phase_of (channel tr) = Some "S").
    { unfold phase_of.
      rewrite (bool_decide_eq_false_2 (last_slice (channel tr) = "Z")) by done.
      by rewrite bool_decide_eq_true_2. }
    rewrite Hbest.
    destruct (firstS done (station tr)) as [best|] eqn:Hfirst.
    + assert (Hsame : ∀ sta, s_stachans st !! sta = firstS (done ++ [tr]) sta).
      { intros sta. rewrite first_S_snoc, Hbest.
        destruct (firstS done sta) as [b|] eqn:Hsta; [done|].
        rewrite HS. simpl. case_bool_decide as Heq; [|done].
        subst sta. by rewrite Hfirst in Hsta. }
      case_bool_decide as Hbetter; intros [= <-]; simpl;
        (split_and!; [done..|]); unfold pick_of; rewrite HS, Hphase; simpl.
      * by rewrite bool_decide_eq_true_2.
      * by rewrite bool_decide_eq_false_2.
    + intros [= <-]. simpl. split_and!; [|done|].
      * intros sta. rewrite first_S_snoc, HS. simpl.
        destruct (decide (station tr = sta)) as [<-|Hne].
        -- rewrite lookup_insert_eq, Hfirst.
           by rewrite bool_decide_eq_true_2.
        -- rewrite lookup_insert_ne, Hbest by done.
           rewrite bool_decide_eq_false_2 by done.
           by destruct (firstS done sta).
      * unfold pick_of. by rewrite Hphase.
  - assert (HS : is_S (channel tr) = false) by by apply bool_decide_eq_false_2.
    intros [= <-]. simpl. split_and!; [|done|].
    + apply Hkeep. intros sta. by rewrite HS.
    + unfold pick_of, phase_of. rewrite HS.
      rewrite (bool_decide_eq_false_2 (last_slice (channel tr) = "Z")) by done.
      rewrite (bool_decide_eq_false_2 (last_slice (channel tr) ∈ ["E"; "N"]))
        by done.
      simpl. by destruct (firstS done (station tr)).
Qed.

Lemma channel_fold_exact rest done st st' :
  (∀ sta, s_stachans st !! sta = firstS done sta) →
  used_s_sta st = [] →
  foldM cstep st rest = Ok st' →
  (∀ sta, s_stachans st' !! sta = firstS (done ++ rest) sta) ∧
  used_s_sta st' = [] ∧
  ev_picks st' =
    ev_picks st ++ picks_from normxcorr2 detection min_cc done rest.
Proof.
  revert done st. induction rest as [|tr rest IH]; intros done st Hbest Hused.
  { intros [= <-]. simpl. rewrite !(right_id_L [] (++)). by split_and!. }
  simpl. intros (st1 & Hstep & Hfold)%result_bind_Ok.
  apply (channel_step_exact done) in Hstep as (Hbest1 & Hused1 & Hpicks1);
    [|done..].
  apply (IH (done ++ [tr])) in Hfold as (Hbest' & Hused' & Hpicks');
    [|done..].
  split_and!; [|done|].
  - intros sta. by rewrite Hbest', <-(assoc_L (++)).
  - by rewrite Hpicks', Hpicks1, <-(assoc_L (++)).
Qed.

(** An iteration raises only through [np.amax] on an empty correlation. *)
Lemma channel_step_result st tr :
  match cstep st tr with
  | Ok _ =>
      ∀ image0, head (select detection (station tr) (channel tr)) = Some image0 →
                normxcorr2 (data tr) (data image0) ≠ []
  | Raise e =>
      e = ValueError ∧
      ∃ image0, head (select detection (station tr) (channel tr)) = Some image0 ∧
                normxcorr2 (data tr) (data image0) = []
  end.
Proof.
  unfold channel_step.
  destruct (select detection (station tr) (channel tr)) as [|image0 rest];
    simpl; [done|].
  unfold np_amax.
  destruct (amax (normxcorr2 (data tr) (data image0))) as [peak|] eqn:Hpeak;
    simpl.
  - assert (Hccc : ∀ image1, Some image0 = Some image1 →
                     normxcorr2 (data tr) (data image1) ≠ []).
    { intros ? [= <-] Hnil. by rewrite Hnil in Hpeak. }
    repeat case_match; done.
  - split; [done|]. exists image0. split; [done|]. by apply amax_None.
Qed.

Lemma channel_fold_result traces st :
  match foldM cstep st traces with
  | Ok _ =>
      ∀ tr image0, tr ∈ traces →
        head (select detection (station tr) (channel tr)) = Some image0 →
        normxcorr2 (data tr) (data image0) ≠ []
  | Raise e =>
      e = ValueError ∧
      ∃ tr image0, tr ∈ traces ∧
        head (select detection (station tr) (channel tr)) = Some image0 ∧
        normxcorr2 (data tr) (data image0) = []
  end.
Proof.
  revert st. induction traces as [|tr traces IH]; intros st; simpl.
  { intros tr image0 []%elem_of_nil. }
  pose proof (channel_step_result st tr) as Hstep.
  destruct (cstep st tr) as [st1|e]; simpl.
  - specialize (IH st1). destruct (foldM cstep st1 traces) as [st'|e].
    + intros tr' image0 [->|Hin]%elem_of_cons; [apply Hstep|by apply IH].
    + destruct IH as (-> & tr' & image0 & Hin & Himage & Hccc).
      split; [done|]. exists tr', image0. split_and!; [by right|done..].
  - destruct Hstep as (-> & image0 & Himage & Hccc).
    split; [done|]. exists tr, image0. split_and!; [by left|done..].
Qed.

(** X1. When no channel of the template has a window in the stream of the
    detection (an empty template and an empty stream are such cases) the
    channel loop correlates nothing, raises nothing and returns an event
    without picks, with the tag it was given. *)
Theorem channel_loop_without_windows template i :
  (∀ tr, tr ∈ template → select detection (station tr) (channel tr) = []) →
  _channel_loop normxcorr2 detection template min_cc i
    = Ok (i, {| picks := [] |}).
Proof.
  intros Hnone. unfold _channel_loop.
  assert (Hstep : ∀ st tr, tr ∈ template → cstep st tr = Ok st).
  { intros st tr Hin. unfold channel_step. cbv zeta. by rewrite Hnone. }
  assert (Hfold : ∀ st, foldM cstep st template = Ok st).
  { clear Hnone. induction template as [|tr traces IH]; intros st; [done|].
    simpl. rewrite Hstep by left. simpl.
    apply IH. intros st' tr' Hin. apply Hstep. by right. }
  by rewrite Hfold.
Qed.

(** X2. The channel loop raises nothing but [ValueError], and it returns an
    event exactly when the correlation of every template channel that has
    a window is not empty. *)
Theorem channel_loop_raises_only_on_empty_correlation template i :
  (∀ e, _channel_loop normxcorr2 detection template min_cc i = Raise e →
        e = ValueError) ∧
  ((∃ ev, _channel_loop normxcorr2 detection template min_cc i = Ok (i, ev)) ↔
   (∀ tr image0, tr ∈ template →
      head (select detection (station tr) (channel tr)) = Some image0 →
      normxcorr2 (data tr) (data image0) ≠ [])).
Proof.
  unfold _channel_loop.
  pose proof (channel_fold_result template loop_init) as Hfold.
  destruct (foldM cstep loop_init template) as [st|e]; simpl.
  - split; [done|]. split; [done|]. intros _. by eexists.
  - destruct Hfold as (-> & tr & image0 & Hin & Himage & Hccc).
    split; [by intros ? [= <-]|]. split; [by intros [? ?]|].
    intros Hgood. by destruct (Hgood tr image0 Hin Himage).
Qed.

(** X3. When the loop over the template channels ends, [used_s_sta] is
    empty, and [s_stachans] holds, for each station, the code, the peak and
    the pick time of the first horizontal channel of the station whose peak
    is above the threshold, first in the order of the template; a station
    without such a channel has no entry. *)
Theorem s_stachans_holds_the_first_channel template st :
  foldM cstep loop_init template = Ok st →
  used_s_sta st = [] ∧
  ∀ sta, s_stachans st !! sta = firstS template sta.
Proof.
  intros Hfold.
  apply (channel_fold_exact template []) in Hfold as (Hbest & Hused & _);
    [done| |done].
  intros sta. simpl. by rewrite lookup_empty.
Qed.

(** X4. The picks of the event, one by one: each template channel with a
    window whose peak is above the threshold gives one pick, in the order
    of the template, with the network and the station of the channel and
    the phase of its code; the pick carries the code and the time of the
    channel itself, unless the channel is horizontal and its peak is not
    above that of the first horizontal channel of its station above the
    threshold, whose code and time it then repeats. *)
Theorem channel_loop_picks_exact template i j ev :
  _channel_loop normxcorr2 detection template min_cc i = Ok (j, ev) →
  picks ev = picks_from normxcorr2 detection min_cc [] template.
Proof.
  unfold _channel_loop. intros (st & Hfold & [= <- <-])%result_bind_Ok.
  apply (channel_fold_exact template []) in Hfold as (_ & _ & Hpicks);
    [done| |done].
  intros sta. simpl. by rewrite lookup_empty.
Qed.
End channel_loop_extras.

(** X5. The channel loop reads, for a station and a channel, the first
    trace the stream of the detection has for them and no other: two
    streams with the same first traces give the same result. *)
Theorem channel_loop_reads_first_window
    (normxcorr2 : list Qc → list Qc → list Qc) (detection detection' : Stream)
    template min_cc i :
  (∀ sta chan,
     head (select detection sta chan) = head (select detection' sta chan)) →
  _channel_loop normxcorr2 detection template min_cc i =
  _channel_loop normxcorr2 detection' template min_cc i.
Proof.
  intros Hhead. unfold _channel_loop.
  assert (Hstep : ∀ st tr, channel_step normxcorr2 detection min_cc st tr =
                           channel_step normxcorr2 detection' min_cc st tr).
  { intros st tr. unfold channel_step.
    specialize (Hhead (station tr) (channel tr)).
    destruct (select detection (station tr) (channel tr)),
      (select detection' (station tr) (channel tr)); simpl in Hhead;
      by simplify_eq. }
  assert (Hfold : ∀ st, foldM (channel_step normxcorr2 detection min_cc) st
                          template =
                        foldM (channel_step normxcorr2 detection' min_cc) st
                          template).
  { induction template as [|tr traces IH]; intros st; [done|].
    simpl. rewrite Hstep.
    destruct (channel_step normxcorr2 detection' min_cc st tr); simpl;
      [apply IH|done]. }
  by rewrite Hfold.
Qed.

(** * More on the pool and on the overseer *)

Lemma mapM_result_Raise {A B} (f : A → result B) l e :
  mapM f l = Raise e →
  ∃ k x, l !! k = Some x ∧ f x = Raise e ∧
         ∀ j y, (j < k)%nat → l !! j = Some y → ∃ z, f y = Ok z.
Proof.
  induction l as [|x l IH]; [done|]. simpl.
  destruct (f x) as [y|e'] eqn:Hx; simpl.
  - destruct (mapM f l) as [ys|e'] eqn:Hl; simpl; [done|].
    intros [= ->]. destruct (IH eq_refl) as (k & x' & Hk & Hx' & Hbefore).
    exists (S k), x'. split_and!; [done..|].
    intros [|j] y' Hj; simpl; [intros [= <-]; by eexists|].
    apply Hbefore. lia.
  - intros [= ->]. exists 0%nat, x. split_and!; [done..|]. intros j y' Hj. lia.
Qed.

Lemma length_concat_sum {A} (ls : list (list A)) :
  length (concat ls) = sum_list (length <$> ls).
Proof.
  induction ls as [|l ls IH]; [done|]. simpl. by rewrite length_app, IH.
Qed.

Section day_loop_extras.
Context (normxcorr2 : list Qc → list Qc → list Qc) (cpu_count : positive).

(** X6. Whatever the order in which the workers complete: without a
    detection [_day_loop] raises [ValueError], the pool having no process;
    the catalog it returns has one event for each detection, in the order
    of the detections, the event of the channel loop for that detection;
    and the exception it raises is that of the first detection, in the
    order of the detections, whose channel loop raises. *)
Theorem day_loop_outcome sched detection_streams template min_cc :
  (detection_streams = [] →
   _day_loop normxcorr2 cpu_count sched detection_streams template min_cc
     = Raise ValueError) ∧
  (∀ events,
     _day_loop normxcorr2 cpu_count sched detection_streams template min_cc
       = Ok events →
     Forall2 (λ detection ev,
                event_of normxcorr2 template min_cc detection = Ok ev)
       detection_streams events) ∧
  (∀ e,
     detection_streams ≠ [] →
     _day_loop normxcorr2 cpu_count sched detection_streams template min_cc
       = Raise e →
     ∃ k detection,
       detection_streams !! k = Some detection ∧
       event_of normxcorr2 template min_cc detection = Raise e ∧
       ∀ j detection', (j < k)%nat →
         detection_streams !! j = Some detection' →
         ∃ ev, event_of normxcorr2 template min_cc detection' = Ok ev).
Proof.
  destruct detection_streams as [|ds rest].
  - assert (_day_loop normxcorr2 cpu_count sched [] template min_cc
              = Raise ValueError) as ->; [|by split_and!].
    unfold _day_loop. simpl.
    case_bool_decide as Hcores; [done|]. exfalso. apply Hcores.
    case_bool_decide; lia.
  - rewrite day_loop_in_order by done. split_and!; [done| |].
    + intros events. apply mapM_result_Forall2.
    + intros e _. apply mapM_result_Raise.
Qed.
End day_loop_extras.

Lemma filter_names_length (ws : list (string * Stream))
    (detections : list DETECTION) (name : string) :
  ws.*1 = template_name <$> detections →
  length (filter (λ w : string * Stream, w.1 = name) ws) =
  length (filter (λ d, template_name d = name) detections).
Proof.
  revert ws. induction detections as [|d detections IH]; intros [|w ws];
    simpl; try done.
  intros [= Hw Hws]. rewrite !filter_cons, Hw.
  case_decide; simpl; by rewrite (IH ws).
Qed.

Lemma sum_list_cons_fmap {A} (f : A → nat) x l :
  sum_list (f <$> x :: l) = (f x + sum_list (f <$> l))%nat.
Proof. done. Qed.

Lemma sum_one_name (names : list string) (name : string) :
  NoDup names → name ∈ names →
  sum_list ((λ n, if decide (name = n) then 1 else 0)%nat <$> names) = 1%nat.
Proof.
  induction 1 as [|n names Hn Hnames IH]; [by intros ?%elem_of_nil|].
  rewrite sum_list_cons_fmap. intros [->|Hin]%elem_of_cons.
  - rewrite decide_True by done.
    rewrite (sum_list_fmap_same 0); [lia|].
    apply Forall_forall. intros n' Hn'. rewrite decide_False; [done|].
    by intros <-.
  - rewrite decide_False by (by intros <-). by rewrite IH.
Qed.

Lemma sum_detections_by_name (names : list string)
    (detections : list DETECTION) :
  NoDup names →
  (∀ d, d ∈ detections → template_name d ∈ names) →
  sum_list ((λ n, length (filter (λ d, template_name d = n) detections))
              <$> names) = length detections.
Proof.
  intros Hnames. induction detections as [|d detections IH]; intros Hknown.
  { by rewrite (sum_list_fmap_same 0) by by apply Forall_forall. }
  simpl length. rewrite <-IH by (intros d' Hd'; apply Hknown; by right).
  rewrite <-(Nat.add_1_l (sum_list _)).
  rewrite <-(sum_one_name names (template_name d) Hnames)
    by (apply Hknown; left).
  clear. induction names as [|n names IH]; [done|].
  rewrite !sum_list_cons_fmap, IH, filter_cons.
  destruct (decide (template_name d = n)); simpl; lia.
Qed.

Lemma index0_head {A} (l : list A) :
  index0 l = match head l with Some x => Ok x | None => Raise IndexError end.
Proof. by destruct l. Qed.

Lemma head_filter_name {B C} (f : string * B → string * C)
    (zs : list (string * B)) (name : string) :
  (∀ t, (f t).1 = t.1) →
  head (filter (λ t : string * C, t.1 = name) (f <$> zs)) =
  f <$> head (filter (λ t : string * B, t.1 = name) zs).
Proof.
  intros Hf. induction zs as [|z zs IH]; [done|].
  rewrite fmap_cons, !filter_cons, Hf. by case_decide.
Qed.

Lemma head_filter_name_None {B} (zs : list (string * B)) (name : string) :
  head (filter (λ t : string * B, t.1 = name) zs) = None → name ∉ zs.*1.
Proof.
  induction zs as [|z zs IH]; [intros _ []%elem_of_nil|].
  rewrite filter_cons. case_decide as Hz; [done|].
  intros Hnone [Heq|Hin]%elem_of_cons; [done|by apply IH].
Qed.

Lemma concat_replicate_nil {A} n : concat (replicate n ([] : list A)) = [].
Proof. induction n as [|n IH]; [done|]. simpl. apply IH. Qed.

Section lag_calc_extras.
Context (normxcorr2 : list Qc → list Qc → list Qc) (cpu_count : positive).
Context (trim_value : Trace → Qc → Qc → result Trace).

Abbreviation call := (lag_calc normxcorr2 cpu_count trim_value).

Lemma catalog_without_streams zipped_templates min_cc :
  catalog_in_order normxcorr2 zipped_templates [] min_cc
    = Ok (replicate (length zipped_templates) []).
Proof.
  unfold catalog_in_order.
  induction zipped_templates as [|template rest IH]; [done|].
  rewrite mapM_result_cons, IH. done.
Qed.

(** The heap grows by one object for each trace of the continuous data and
    each detection. *)
Lemma windows_heap_length zipped_templates delays shift_len detect_data
    detections (h H : list Trace) dss :
  detect_data `prefix_of` h →
  mapM (detection_window trim_value zipped_templates delays shift_len
          (seq 0 (length detect_data))) detections h = (H, Ok dss) →
  length H = (length h + length detections * length detect_data)%nat.
Proof.
  revert h dss. induction detections as [|detection rest IH];
    intros h dss Hpre Hrun.
  { injection Hrun as <- <-. simpl. lia. }
  rewrite heap_mapM_cons in Hrun.
  destruct (detection_window_spec trim_value zipped_templates delays shift_len
              detect_data detection h Hpre) as (new & Hd & Hnew).
  rewrite Hd in Hrun.
  destruct (mapM (window_of trim_value zipped_templates delays detection
                    shift_len) detect_data) as [ws|] eqn:Hws;
    simpl in Hrun; [|done].
  rewrite (Hnew ws eq_refl) in Hrun.
  destruct (mapM (M:=heapM) _ rest (h ++ window_objects detect_data ws))
    as [H' [dss'|]] eqn:Hrest; [|done].
  injection Hrun as <- <-.
  apply IH in Hrest; [|by apply prefix_app_r].
  rewrite Hrest, length_app.
  rewrite (window_objects_length trim_value zipped_templates delays shift_len
             detection _ _ Hws).
  simpl. lia.
Qed.

(** The exceptions of the window of a trace, with the sorted templates and
    the delay table of [lag_calc]. *)
Lemma window_of_errors (zs : list (string * Stream)) detection shift_len tr e :
  window_of trim_value
    ((λ t : string * Stream, (t.1, Stream_sort t.2)) <$> zs)
    ((λ t : string * Stream, (t.1, delays_of t.2)) <$> zs)
    detection shift_len tr = Raise e →
  ((template_name detection ∉ zs.*1) ∧ e = IndexError) ∨
  (∃ template template0,
     head (filter (λ t, t.1 = template_name detection)
             ((λ t : string * Stream, (t.1, Stream_sort t.2)) <$> zs))
       = Some template ∧
     head (select template.2 (station tr) (channel tr)) = Some template0 ∧
     sampling_rate template0 = 0 ∧
     e = ZeroDivisionError) ∨
  (∃ start_time end_time, trim_value tr start_time end_time = Raise e).
Proof.
  unfold window_of.
  rewrite !index0_head.
  rewrite (head_filter_name
             (λ t : string * Stream, (t.1, Stream_sort t.2))) by done.
  rewrite (head_filter_name
             (λ t : string * Stream, (t.1, delays_of t.2))) by done.
  destruct (head (filter _ zs)) as [[name template]|] eqn:Hhead; simpl.
  2:{ intros [= <-]. left. split; [|done]. by apply head_filter_name_None. }
  destruct (select (Stream_sort template) _ _) as [|template0 rest] eqn:Hsel;
    simpl; [done|].
  unfold py_div. case_bool_decide as Hrate; simpl.
  { intros [= <-]. right. left. exists (name, Stream_sort template), template0.
    simpl. by rewrite Hsel. }
  destruct (filter _ (delays_of template)) as [|d ds] eqn:Hd; simpl.
  { exfalso.
    assert (Hin : template0 ∈ select (Stream_sort template)
                    (station tr) (channel tr)).
    { rewrite Hsel. left. }
    apply list_elem_of_filter in Hin as [[Hsta Hchan] Hin].
    unfold Stream_sort in Hin. rewrite sort_by_Permutation in Hin.
    assert (Hentry :
      (station template0, channel template0,
       starttime template0 - min_starttime template)
      ∈ filter (λ d : delay_entry,
                  d.1.1 = station tr ∧ d.1.2 = channel tr)
          (delays_of template)).
    { apply list_elem_of_filter. split; [done|].
      unfold delays_of.
      by apply (list_elem_of_fmap_2
                  (λ tr0, (station tr0, channel tr0,
                           starttime tr0 - min_starttime template))). }
    rewrite Hd in Hentry. by apply elem_of_nil in Hentry. }
  destruct (trim_value _ _ _) as [window|e'] eqn:Htrim; simpl; [done|].
  intros [= <-]. right. right. eauto.
Qed.

(** X7. With the delay table [lag_calc] builds, a trace of the continuous
    data makes the window step raise in three cases only: the detection
    names a template that is not in the collection ([IndexError]), the
    template channel of the trace has a sampling rate of zero
    ([ZeroDivisionError]), or [trim] raises; the look-up of the delay of a
    channel the template has never fails. *)
Theorem window_step_errors template_names (templates : list Stream)
    zipped delays detection shift_len detect_stream tr (heap : list Trace) e :
  delay_loop (zip template_names templates) = (zipped, Ok delays) →
  (tr < length heap)%nat →
  (window_step trim_value zipped delays detection shift_len detect_stream tr
     heap).2 = Raise e →
  ((template_name detection ∉ (zip template_names templates).*1) ∧
   e = IndexError) ∨
  (∃ template template0,
     head (filter (λ t, t.1 = template_name detection) zipped)
       = Some template ∧
     head (select template.2 (station (heap !!! tr)) (channel (heap !!! tr)))
       = Some template0 ∧
     sampling_rate template0 = 0 ∧
     e = ZeroDivisionError) ∨
  (∃ start_time end_time,
     trim_value (heap !!! tr) start_time end_time = Raise e).
Proof.
  intros Hdelays Htr. rewrite delay_loop_spec in Hdelays.
  injection Hdelays as <- <-.
  rewrite window_step_spec by done.
  destruct (window_of _ _ _ _ _ (heap !!! tr)) as [w|e'] eqn:Hw; [done|].
  simpl. intros [= ->]. by apply (window_of_errors _ _ shift_len).
Qed.

(** X8. Without detections [lag_calc] returns an empty catalog and makes no
    copy of a trace, whatever the templates and the continuous data. *)
Theorem lag_calc_without_detections scheds detect_data template_names
    (templates : list Stream) shift_len min_cc :
  returned (call scheds [] detect_data template_names templates shift_len
              min_cc) = Ok [] ∧
  heap_after (call scheds [] detect_data template_names templates shift_len
                min_cc) = detect_data.
Proof.
  destruct (lag_calc_phases normxcorr2 cpu_count trim_value scheds []
              detect_data template_names templates shift_len min_cc)
    as [-> ->].
  split; [|done]. simpl. unfold load_streams. simpl.
  rewrite catalog_without_streams. simpl. by rewrite concat_replicate_nil.
Qed.

(** X9. The catalog holds, for each template and its name, one event for
    each detection with that name; these are as many events as there are
    detections when the names of the templates differ from each other and
    every detection has the name of a template. *)
Theorem lag_calc_event_count scheds detections detect_data template_names
    (templates : list Stream) shift_len min_cc events :
  returned (call scheds detections detect_data template_names templates
              shift_len min_cc) = Ok events →
  length events =
    sum_list ((λ name, length (filter (λ d, template_name d = name) detections))
                <$> (zip template_names templates).*1) ∧
  (NoDup ((zip template_names templates).*1) →
   (∀ d, d ∈ detections →
         template_name d ∈ (zip template_names templates).*1) →
   length events = length detections).
Proof.
  intros Hreturned.
  assert (Hcount : length events =
    sum_list ((λ name, length (filter (λ d, template_name d = name) detections))
                <$> (zip template_names templates).*1)).
  { destruct (lag_calc_phases normxcorr2 cpu_count trim_value scheds
                detections detect_data template_names templates shift_len
                min_cc) as [_ Hphases].
    rewrite Hphases in Hreturned. clear Hphases.
    destruct (mapM (M:=heapM) _ detections detect_data)
      as [heap [dss|e]] eqn:Hrun; simpl in Hreturned; [|done].
    destruct (catalog_in_order _ _ _ _) as [groups|] eqn:Hgroups;
      simpl in Hreturned; [|done].
    injection Hreturned as <-.
    apply windows_content in Hrun as (_ & _ & _ & Hall); [|done].
    assert (Hnames : (load_streams heap dss).*1 = template_name <$> detections).
    { rewrite load_streams_names.
      eapply window_names; [|exact Hall]. by intros d ds [Hname _]. }
    rewrite length_concat_sum, <-zipped_names. clear Hall.
    apply mapM_result_Forall2 in Hgroups. f_equal.
    induction Hgroups as [|template group zipped groups Hgroup _ IH]; [done|].
    rewrite !fmap_cons. f_equal; [|done].
    apply mapM_result_length in Hgroup.
    rewrite Hgroup, length_fmap. by apply filter_names_length. }
  split; [done|]. intros Hnames Hknown. rewrite Hcount.
  by apply sum_detections_by_name.
Qed.

(** X10. When [lag_calc] returns a catalog it has made one copy of each
    trace of the continuous data for each detection, whether or not the
    template of the detection has a channel for the trace. *)
Theorem lag_calc_copies_every_trace scheds detections detect_data
    template_names (templates : list Stream) shift_len min_cc events :
  returned (call scheds detections detect_data template_names templates
              shift_len min_cc) = Ok events →
  length (heap_after (call scheds detections detect_data template_names
                        templates shift_len min_cc)) =
    (length detect_data + length detections * length detect_data)%nat.
Proof.
  destruct (lag_calc_phases normxcorr2 cpu_count trim_value scheds
              detections detect_data template_names templates shift_len
              min_cc) as [-> ->].
  destruct (mapM (M:=heapM) _ detections detect_data)
    as [heap [dss|e]] eqn:Hrun; simpl; [|done].
  intros _. by eapply windows_heap_length.
Qed.

(** X11. A template whose traces are in the order of their start times
    already is left as it is. *)
Theorem sorted_template_is_left_as_is scheds detections detect_data
    template_names (templates : list Stream) shift_len min_cc (k : nat)
    (name : string) (template : Stream) :
  template_names !! k = Some name →
  templates !! k = Some template →
  Sorted (λ tr1 tr2, starttime tr1 ≤ starttime tr2) template →
  templates_after (call scheds detections detect_data template_names
                     templates shift_len min_cc) !! k = Some template.
Proof.
  intros Hname Htemplate Hsorted. rewrite lag_calc_templates_after.
  apply lookup_lt_Some in Hname as Hk.
  apply lookup_lt_Some in Htemplate as Hk'.
  rewrite lookup_app_l by (rewrite length_fmap, length_take; lia).
  rewrite list_lookup_fmap, lookup_take_lt by done.
  rewrite Htemplate. simpl. f_equal.
  by apply (sort_by_Sorted_id Qcle starttime).
Qed.
End lag_calc_extras.

(** * When the overseer returns *)


Section lag_calc_returns.
Context (normxcorr2 : list Qc → list Qc → list Qc) (cpu_count : positive).
Context (trim_value : Trace → Qc → Qc → result Trace).


End lag_calc_returns.

(** ** Examples of the further properties *)

Lemma channel_loop_without_windows_witness :
  _channel_loop Fixtures.xcorr [] Fixtures.template Fixtures.min_cc 7
    = Ok (7%nat, {| picks := [] |}).
Proof.
  apply (channel_loop_without_windows Fixtures.xcorr [] Fixtures.min_cc
           Fixtures.template 7).
  intros tr _. reflexivity.
Defined.

Lemma s_stachans_holds_the_first_channel_witness :
  used_s_sta Fixtures.final_state3 = [] ∧
  ∀ sta, s_stachans Fixtures.final_state3 !! sta =
         first_S Fixtures.xcorr Fixtures.windows3 Fixtures.min_cc
           Fixtures.template3 sta.
Proof.
  apply (s_stachans_holds_the_first_channel Fixtures.xcorr Fixtures.windows3
           Fixtures.min_cc Fixtures.template3 Fixtures.final_state3).
  vm_compute; reflexivity.
Defined.

Lemma channel_loop_picks_exact_witness :
  picks (Fixtures.event Fixtures.windows3 Fixtures.template3) =
  picks_from Fixtures.xcorr Fixtures.windows3 Fixtures.min_cc []
    Fixtures.template3.
Proof.
  apply (channel_loop_picks_exact Fixtures.xcorr Fixtures.windows3
           Fixtures.min_cc Fixtures.template3 0 0).
  vm_compute; reflexivity.
Defined.

Lemma channel_loop_reads_first_window_witness :
  _channel_loop Fixtures.xcorr Fixtures.windows Fixtures.template
    Fixtures.min_cc 0 =
  _channel_loop Fixtures.xcorr Fixtures.windows_twice Fixtures.template
    Fixtures.min_cc 0.
Proof.
  apply (channel_loop_reads_first_window Fixtures.xcorr Fixtures.windows
           Fixtures.windows_twice Fixtures.template Fixtures.min_cc 0).
  intros sta chan. unfold Fixtures.windows_twice, select.
  rewrite filter_app.
  destruct (decide ("STA1" = sta ∧ "EHZ" = chan)) as [[<- <-]|Hne].
  - reflexivity.
  - rewrite (filter_cons_False _ _ []) by exact Hne.
    rewrite filter_nil. by rewrite (right_id_L [] (++)).
Defined.

Lemma window_step_errors_witness :
  (("X" ∉ (zip Fixtures.template_names Fixtures.templates).*1) ∧
   IndexError = IndexError) ∨
  (∃ template template0,
     head (filter (λ t : string * Stream, t.1 = "X") Fixtures.zipped_templates)
       = Some template ∧
     head (select template.2 (station (Fixtures.windows !!! 0%nat))
             (channel (Fixtures.windows !!! 0%nat))) = Some template0 ∧
     sampling_rate template0 = 0 ∧
     IndexError = ZeroDivisionError) ∨
  (∃ start_time end_time,
     Fixtures.trim (Fixtures.windows !!! 0%nat) start_time end_time
       = Raise IndexError).
Proof.
  apply (window_step_errors Fixtures.trim Fixtures.template_names
           Fixtures.templates Fixtures.zipped_templates Fixtures.delays
           {| template_name := "X"; detect_time := Fixtures.q 10 1 |}
           Fixtures.shift_len [] 0 Fixtures.windows IndexError).
  - vm_compute; reflexivity.
  - simpl. lia.
  - vm_compute; reflexivity.
Defined.

Lemma lag_calc_event_count_witness :
  length Fixtures.catalog = 3%nat ∧
  length Fixtures.catalog = length Fixtures.detections.
Proof.
  destruct (lag_calc_event_count Fixtures.xcorr 2 Fixtures.trim
              (λ _, Fixtures.lifo) Fixtures.detections Fixtures.windows
              Fixtures.template_names Fixtures.templates Fixtures.shift_len
              Fixtures.min_cc Fixtures.catalog) as [Hcount Hsame].
  - vm_compute; reflexivity.
  - split; [rewrite Hcount; vm_compute; reflexivity|].
    apply Hsame.
    + apply (bool_decide_unpack _). vm_compute; reflexivity.
    + apply Forall_forall. apply (bool_decide_unpack _). vm_compute; reflexivity.
Defined.

Lemma lag_calc_copies_every_trace_witness :
  length (heap_after
            (lag_calc Fixtures.xcorr 2 Fixtures.trim (λ _, Fixtures.lifo)
               Fixtures.detections Fixtures.windows Fixtures.template_names
               Fixtures.templates Fixtures.shift_len Fixtures.min_cc))
    = (4 + 3 * 4)%nat.
Proof.
  apply (lag_calc_copies_every_trace Fixtures.xcorr 2 Fixtures.trim
           (λ _, Fixtures.lifo) Fixtures.detections Fixtures.windows
           Fixtures.template_names Fixtures.templates Fixtures.shift_len
           Fixtures.min_cc Fixtures.catalog).
  vm_compute; reflexivity.
Defined.

Lemma sorted_template_is_left_as_is_witness :
  templates_after
    (lag_calc Fixtures.xcorr 2 Fixtures.trim (λ _, Fixtures.lifo)
       Fixtures.detections Fixtures.windows Fixtures.template_names
       Fixtures.templates Fixtures.shift_len Fixtures.min_cc) !! 1%nat
    = Some Fixtures.template3.
Proof.
  apply (sorted_template_is_left_as_is Fixtures.xcorr 2 Fixtures.trim
           (λ _, Fixtures.lifo) Fixtures.detections Fixtures.windows
           Fixtures.template_names Fixtures.templates Fixtures.shift_len
           Fixtures.min_cc 1 "B" Fixtures.template3).
  - reflexivity.
  - reflexivity.
  - apply (bool_decide_unpack _). vm_compute; reflexivity.
Defined.

